(** * Fleet motion simulator and geospatial aggregation: a shallow embedding

    The Python sources [main.py] (the aggregation endpoints) and
    [moving_sim.py] (the per-vehicle simulator) are embedded as Rocq
    functions.  Python floats are finite and read as real numbers (exact
    arithmetic), Python integers as [Z], nullable SQL columns as [option],
    exceptions as the left summand of a result type, and the global
    [random] generator as an explicit tape of raw draws threaded through
    every call.  Where rounding decides whether a call raises, as in the
    distance calls of [nearest], the outcome of the call is a parameter
    of the model and the properties hold for every outcome. *)

From Stdlib Require Import Reals Lra Lia ZArith List Ascii String Bool.
From Stdlib Require Import Permutation Sorted.
Import ListNotations.

Local Open Scope R_scope.

(** ** Python runtime model *)

Module Py.

Inductive exc : Type :=
| IndexError
| ZeroDivisionError
| ValueError
| TypeError.

Inductive result (A : Type) : Type :=
| Ok (a : A)
| Raise (e : exc).
Arguments Ok {A} a.
Arguments Raise {A} e.

(** The state of the global [random] generator: the infinite tape of raw
    draws still to come.  Every call to [random.random] or
    [random.randint] consumes the head of the tape. *)
Definition rng : Type := nat -> Z.

Definition rng_head (g : rng) : Z := g O.
Definition rng_tail (g : rng) : rng := fun n => g (S n).

(** Computations that may raise and that consume randomness. *)
Definition M (A : Type) : Type := rng -> result (A * rng).

Definition ret {A} (a : A) : M A := fun g => Ok (a, g).

Definition raise {A} (e : exc) : M A := fun _ => Raise e.

Definition bind {A B} (m : M A) (k : A -> M B) : M B :=
  fun g =>
    match m g with
    | Ok (a, g') => k a g'
    | Raise e => Raise e
    end.

Definition lift {A} (r : result A) : M A :=
  fun g =>
    match r with
    | Ok a => Ok (a, g)
    | Raise e => Raise e
    end.

(** [l[i]] with Python's negative indices. *)
Definition index {A} (l : list A) (i : Z) : result A :=
  let n := Z.of_nat (List.length l) in
  let j := if (i <? 0)%Z then (i + n)%Z else i in
  if ((0 <=? j)%Z && (j <? n)%Z)%bool
  then match nth_error l (Z.to_nat j) with
       | Some a => Ok a
       | None => Raise IndexError
       end
  else Raise IndexError.

(** [l[:k]] with Python's negative bound. *)
Definition slice_to {A} (l : list A) (k : Z) : list A :=
  if (k <? 0)%Z
  then firstn (Z.to_nat (Z.of_nat (List.length l) + k)) l
  else firstn (Z.to_nat k) l.

(** [x / y] on floats. *)
Definition fdiv (x y : R) : result R :=
  if Req_dec_T y 0 then Raise ZeroDivisionError else Ok (x / y).

(** [x % y] on integers. *)
Definition imod (x y : Z) : result Z :=
  if (y =? 0)%Z then Raise ZeroDivisionError else Ok (x mod y)%Z.

(** [max(a, b)] and [min(a, b)]: the first argument wins ties. *)
Definition fmax (a b : R) : R := if Rlt_dec a b then b else a.

(** [int(x)] on a float: truncation toward zero. *)
Definition int_of_float (x : R) : Z :=
  if Rle_dec 0 x then Int_part x else (- Int_part (- x))%Z.

(** [int(x // y)] for a positive float [y]: the floor of the quotient. *)
Definition floordiv (x y : R) : Z := Int_part (x / y).

(** [random.random()]: a 53-bit fraction in [[0, 1)]. *)
Definition random : M R :=
  fun g => Ok (IZR (rng_head g mod 2 ^ 53) / IZR (2 ^ 53), rng_tail g).

(** [random.randint(a, b)]: an integer of [[a, b]]; an empty range raises. *)
Definition randint (a b : Z) : M Z :=
  fun g =>
    if (b <? a)%Z then Raise ValueError
    else Ok ((a + rng_head g mod (b - a + 1))%Z, rng_tail g).

(** [random.uniform(a, b)] is [a + (b - a) * random()]. *)
Definition uniform (a b : R) : M R :=
  bind random (fun u => ret (a + (b - a) * u)).

Definition Rleb (x y : R) : bool := if Rle_dec x y then true else false.
Definition Rltb (x y : R) : bool := if Rlt_dec x y then true else false.

End Py.

Notation "x <- m ;; k" := (Py.bind m (fun x => k))
  (at level 61, m at next level, right associativity).

(** ** GeoMath: great-circle distance and interpolation *)

Definition radians (x : R) : R := x * (PI / 180).

(** [math.atan2(y, x)] on the reals. *)
Definition atan2 (y x : R) : R :=
  if Rlt_dec 0 x then atan (y / x)
  else if Rlt_dec x 0 then
         if Rle_dec 0 y then atan (y / x) + PI else atan (y / x) - PI
  else if Rlt_dec 0 y then PI / 2
  else if Rlt_dec y 0 then - (PI / 2)
  else 0.


(** moving_sim.py, [haversine_km], on the reals, as [haversine_m]. *)
Definition haversine_km (a_lat a_lon b_lat b_lon : R) : R :=
  let R_ := 6371 in
  let dlat := radians (b_lat - a_lat) in
  let dlon := radians (b_lon - a_lon) in
  let a := sin (dlat / 2) ^ 2
           + cos (radians a_lat) * cos (radians b_lat) * sin (dlon / 2) ^ 2 in
  let c := 2 * atan2 (sqrt a) (sqrt (1 - a)) in
  R_ * c.

(** moving_sim.py, [interp] *)
Definition interp (a b frac : R) : R := a + (b - a) * frac.

(** A point of the data model: latitude and longitude in degrees. *)
Definition GeoPoint : Type := (R * R)%type.

(** The haversine term [a] shared by the two distance functions. *)
Definition hav_a (lat1 lon1 lat2 lon2 : R) : R :=
  sin (radians (lat2 - lat1) / 2) ^ 2
  + cos (radians lat1) * cos (radians lat2)
    * sin (radians (lon2 - lon1) / 2) ^ 2.

(** The central angle [c]. *)
Definition hav_c (lat1 lon1 lat2 lon2 : R) : R :=
  2 * atan2 (sqrt (hav_a lat1 lon1 lat2 lon2))
        (sqrt (1 - hav_a lat1 lon1 lat2 lon2)).

(** ** moving_sim.py: the per-vehicle simulator *)

Module MovingSim.

Definition POST_INTERVAL : R := 5.
Definition SIMULATION_JITTER : R := 3 / 1000000.

(** A route definition: [{"name": ..., "stops": [...]}]. *)
Record RouteDef : Type := mkRouteDef {
  name : string;
  stops : list GeoPoint
}.

(** An element of [self.segments]: [{"a": a, "b": b, "dist_km": d}]. *)
Record Segment : Type := mkSegment {
  seg_a : GeoPoint;
  seg_b : GeoPoint;
  dist_km : R
}.

(** The attributes of a [BusThread] instance. *)
Record BusThread : Type := mkBusThread {
  bus_id : string;
  route_name : string;
  waypoints : list GeoPoint;
  post_interval : R;
  current_segment : Z;
  frac : R;
  occupancy : Z;
  speed_kmph : R;
  segments : list Segment
}.

(** The loop [for i in range(len(self.waypoints) - 1)] of [__init__]: one
    segment per pair of consecutive waypoints. *)
Fixpoint build_segments (wps : list GeoPoint) : list Segment :=
  match wps with
  | a :: rest =>
      match rest with
      | b :: _ =>
          mkSegment a b (haversine_km (fst a) (snd a) (fst b) (snd b))
            :: build_segments rest
      | [] => []
      end
  | [] => []
  end.

(** [BusThread.__init__] *)
Definition init (bus_id : string) (route_def : RouteDef)
    (post_interval : R) : Py.M BusThread :=
  occ <- Py.randint 8 35 ;;
  spd <- Py.uniform 22 28 ;;
  let wps := stops route_def in
  let segs := build_segments wps in
  segs' <- match segs with
           | [] =>
               w0 <- Py.lift (Py.index wps 0) ;;
               Py.ret (segs ++ [mkSegment w0 w0 (1 / 10)])
           | _ :: _ => Py.ret segs
           end ;;
  Py.ret (mkBusThread bus_id (name route_def) wps post_interval
            0 0 occ spd segs').

(** [BusThread.get_current_latlon] *)
Definition get_current_latlon (self : BusThread) : Py.M (R * R) :=
  seg <- Py.lift (Py.index (segments self) (current_segment self)) ;;
  let lat := interp (fst (seg_a seg)) (fst (seg_b seg)) (frac self) in
  let lon := interp (snd (seg_a seg)) (snd (seg_b seg)) (frac self) in
  j1 <- Py.uniform (- SIMULATION_JITTER) SIMULATION_JITTER ;;
  j2 <- Py.uniform (- SIMULATION_JITTER) SIMULATION_JITTER ;;
  Py.ret (lat + j1, lon + j2).

(** [BusThread.step] *)
Definition step (self : BusThread) (dt_sec : R) : Py.M BusThread :=
  seg <- Py.lift (Py.index (segments self) (current_segment self)) ;;
  frac1 <- (if Rle_dec (dist_km seg) 0
            then Py.ret 1
            else
              let v_km_s := speed_kmph self / 3600 in
              q <- Py.lift (Py.fdiv (v_km_s * dt_sec)
                              (Py.fmax (1 / 1000000) (dist_km seg))) ;;
              Py.ret (frac self + q)) ;;
  if Rle_dec 1 frac1 then
    u1 <- Py.random ;;
    occ1 <- (if Rlt_dec u1 (3 / 10)
             then
               alighting <- Py.randint 0 (Z.min 3 (occupancy self)) ;;
               Py.ret (Z.max 0 (occupancy self - alighting))
             else Py.ret (occupancy self)) ;;
    cs <- Py.lift (Py.imod (current_segment self + 1)
                     (Z.of_nat (List.length (segments self)))) ;;
    u2 <- Py.random ;;
    occ2 <- (if Rlt_dec u2 (2 / 10)
             then
               boarding <- Py.randint 0 (Z.min 2 (50 - occ1)) ;;
               Py.ret (Z.min 50 (occ1 + boarding))
             else Py.ret occ1) ;;
    let occ3 := if (50 <? occ2)%Z then 50%Z else occ2 in
    Py.ret (mkBusThread (bus_id self) (route_name self) (waypoints self)
              (post_interval self) cs 0 occ3 (speed_kmph self)
              (segments self))
  else
    Py.ret (mkBusThread (bus_id self) (route_name self) (waypoints self)
              (post_interval self) (current_segment self) frac1
              (occupancy self) (speed_kmph self) (segments self)).

(** A sequence of [step] calls, one per elapsed time of [dts], on the same
    vehicle; the result lists the vehicle's state after each call. *)
Fixpoint run (self : BusThread) (dts : list R) : Py.M (list BusThread) :=
  match dts with
  | [] => Py.ret []
  | dt :: rest =>
      s <- step self dt ;;
      tr <- run s rest ;;
      Py.ret (s :: tr)
  end.

(** The vehicle after a sequence of [step] calls. *)
Definition final (self : BusThread) (tr : list BusThread) : BusThread :=
  last tr self.

Definition sum_dt (dts : list R) : R := fold_right Rplus 0 dts.

(** The state invariant of a constructed vehicle. *)
Definition occupancy_ok (b : BusThread) : Prop :=
  (0 <= occupancy b <= 50)%Z.

Definition segment_ok (b : BusThread) : Prop :=
  (0 <= current_segment b < Z.of_nat (List.length (segments b)))%Z.

(** The vehicle [self] with its fractional progress replaced. *)
Definition with_frac (self : BusThread) (f : R) : BusThread :=
  mkBusThread (bus_id self) (route_name self) (waypoints self)
    (post_interval self) (current_segment self) f (occupancy self)
    (speed_kmph self) (segments self).

(** The progress a call [step dt] adds on a segment of positive length. *)
Definition advance (self : BusThread) (seg : Segment) (dt : R) : R :=
  frac self
  + speed_kmph self / 3600 * dt / Py.fmax (1 / 1000000) (dist_km seg).

End MovingSim.

(** ** main.py: the aggregation endpoints *)

Module Main.

Local Open Scope string_scope.

(** A row of the [buses] table; nullable columns are options. *)
Record Bus : Type := mkBus {
  id : Z;
  bus_id : string;
  latitude : option R;
  longitude : option R;
  occupancy : option Z;
  route : option string;
  last_update : option Z
}.

(** The dictionary built by [bus_to_dict]. *)
Record BusDict : Type := mkBusDict {
  d_bus_id : string;
  d_latitude : option R;
  d_longitude : option R;
  d_occupancy : option Z;
  d_route : option string;
  d_last_update : option Z
}.

(** [bus_to_dict] *)
Definition bus_to_dict (bus : Bus) : BusDict :=
  mkBusDict (bus_id bus)
    (match latitude bus with Some x => Some x | None => None end)
    (match longitude bus with Some x => Some x | None => None end)
    (match occupancy bus with Some n => Some n | None => None end)
    (route bus)
    (match last_update bus with Some n => Some n | None => None end).

(** The SQL predicates [column >= bound] and [column <= bound]: a NULL
    column makes the predicate NULL, and the row is dropped. *)
Definition sql_ge (col : option R) (bound : R) : bool :=
  match col with
  | Some x => Py.Rleb bound x
  | None => false
  end.

Definition sql_le (col : option R) (bound : R) : bool :=
  match col with
  | Some x => Py.Rleb x bound
  | None => false
  end.

(** [if bound is not None: q = q.filter(pred)] *)
Definition filter_if {A} (bound : option R) (pred : A -> R -> bool)
    (q : list A) : list A :=
  match bound with
  | Some v => filter (fun row => pred row v) q
  | None => q
  end.

(** A dictionary keyed by [bus_id], in insertion order. *)
Fixpoint dict_set (d : list (string * BusDict)) (k : string) (v : BusDict)
    : list (string * BusDict) :=
  match d with
  | [] => [(k, v)]
  | (k', v') :: rest =>
      if String.eqb k' k then (k', v) :: rest
      else (k', v') :: dict_set rest k v
  end.

Inductive BusesOut : Type :=
| AsList (out : list BusDict)
| AsMap (out : list (string * BusDict)).

(** [get_all_buses], over the rows [db] of the [buses] table. *)
Definition get_all_buses (as_map : bool)
    (min_lat max_lat min_lon max_lon : option R) (db : list Bus)
    : BusesOut :=
  let q := db in
  let q := filter_if min_lat (fun b v => sql_ge (latitude b) v) q in
  let q := filter_if max_lat (fun b v => sql_le (latitude b) v) q in
  let q := filter_if min_lon (fun b v => sql_ge (longitude b) v) q in
  let q := filter_if max_lon (fun b v => sql_le (longitude b) v) q in
  let buses := q in
  let out := map bus_to_dict buses in
  if as_map
  then AsMap (fold_left (fun d b => dict_set d (d_bus_id b) b) out [])
  else AsList out.

(** The rows selected by the bounding box, whatever the output shape. *)
Definition buses_of (o : BusesOut) : list BusDict :=
  match o with
  | AsList out => out
  | AsMap out => map snd out
  end.

Record Stop : Type := mkStop {
  stop_name : string;
  stop_lat : R;
  stop_lon : R
}.

Definition MASTER_STOPS : list Stop :=
  [ mkStop "Amritsar Railway Station" 31.6340 74.8737;
    mkStop "Golden Temple" 31.6200 74.8765;
    mkStop "Jalandhar Bus Stand" 31.3256 75.5792;
    mkStop "Ludhiana Railway Station" 30.9010 75.8573;
    mkStop "Patiala Bus Stand" 30.3398 76.3869;
    mkStop "Bathinda Railway Station" 30.2110 74.9455;
    mkStop "Chandigarh Bus Stand" 30.7333 76.7794;
    mkStop "Mohali Bus Stand" 30.7041 76.7177;
    mkStop "Ferozepur Railway Station" 30.9153 74.6100;
    mkStop "Gurdaspur Bus Stand" 32.0417 75.4017;
    mkStop "Pathankot Railway Station" 32.2748 75.6522;
    mkStop "Batala Bus Stand" 31.8186 75.2028;
    mkStop "Mansa Bus Stand" 29.9881 75.4017;
    mkStop "Barnala Bus Stand" 30.3745 75.5486;
    mkStop "Sangrur Railway Station" 30.2450 75.8447;
    mkStop "Abohar Bus Stand" 30.1445 74.1995;
    mkStop "Fazilka Bus Stand" 30.4017 74.0283;
    mkStop "Muktsar Railway Station" 30.4745 74.5169;
    mkStop "Dera Baba Nanak" 32.0333 75.0333;
    mkStop "Punjab University" 30.7589 76.7681;
    mkStop "Kharar Bus Stand" 30.7456 76.6544 ].

(** [{"stop": s, "dist_m": int(d)}] *)
Record NearStop : Type := mkNearStop {
  ns_stop : Stop;
  ns_dist_m : Z
}.

(** [{"bus_id": ..., "lat": ..., "lon": ..., "occupancy": ..., "dist_m": int(d)}] *)
Record NearBus : Type := mkNearBus {
  nb_bus_id : string;
  nb_lat : R;
  nb_lon : R;
  nb_occupancy : option Z;
  nb_dist_m : Z
}.

Record Nearest : Type := mkNearest {
  nearest_stops : list NearStop;
  nearest_buses : list NearBus
}.

(** [list.sort(key=...)]: ascending in the key and stable.  An element is
    placed before the first one whose key is not smaller, so that among
    equal keys the order of the input is kept. *)
Fixpoint insert_by {A} (key : A -> Z) (x : A) (l : list A) : list A :=
  match l with
  | [] => [x]
  | y :: rest =>
      if (key x <=? key y)%Z then x :: l else y :: insert_by key x rest
  end.

Definition sort_by {A} (key : A -> Z) (l : list A) : list A :=
  fold_right (insert_by key) [] l.

Fixpoint for_each {A B} (f : A -> Py.result B) (l : list A)
    : Py.result (list B) :=
  match l with
  | [] => Py.Ok []
  | x :: rest =>
      match f x with
      | Py.Ok y =>
          match for_each f rest with
          | Py.Ok ys => Py.Ok (y :: ys)
          | Py.Raise e => Py.Raise e
          end
      | Py.Raise e => Py.Raise e
      end
  end.

Definition is_not_none {A} (o : option A) : bool :=
  match o with Some _ => true | None => false end.

Section Nearest.

(** A call of [haversine_m] as the interpreter runs it.  On binary64
    floats the term [a] of the formula is rounded; when rounding takes it
    above 1, as it does for some pairs of nearly antipodal points,
    [math.sqrt(1 - a)] raises [ValueError] and so does the call.
    Otherwise the call returns a finite distance, which agrees with the
    real number [haversine_m] up to rounding, and [int(d)] truncates it.
    [nearest] is stated for every such evaluation. *)
Variable haversine_m_fl : R -> R -> R -> R -> Py.result R.

(** The body of the loop over [MASTER_STOPS]. *)
Definition near_stop (lat lon : R) (s : Stop) : Py.result NearStop :=
  match haversine_m_fl lat lon (stop_lat s) (stop_lon s) with
  | Py.Ok d => Py.Ok (mkNearStop s (Py.int_of_float d))
  | Py.Raise e => Py.Raise e
  end.

(** The body of the loop over the located buses; a missing coordinate
    would make [haversine_m] raise. *)
Definition near_bus (lat lon : R) (b : Bus) : Py.result NearBus :=
  match latitude b, longitude b with
  | Some blat, Some blon =>
      match haversine_m_fl lat lon blat blon with
      | Py.Ok d =>
          Py.Ok (mkNearBus (bus_id b) blat blon (occupancy b)
                   (Py.int_of_float d))
      | Py.Raise e => Py.Raise e
      end
  | _, _ => Py.Raise Py.TypeError
  end.

(** [nearest], over the rows [db] of the [buses] table. *)
Definition nearest (lat lon : R) (max_results : Z) (db : list Bus)
    : Py.result Nearest :=
  match for_each (near_stop lat lon) MASTER_STOPS with
  | Py.Ok stops =>
      let stops := sort_by ns_dist_m stops in
      let buses :=
        filter
          (fun b => is_not_none (latitude b) && is_not_none (longitude b))
          db in
      match for_each (near_bus lat lon) buses with
      | Py.Ok bus_list =>
          let bus_list := sort_by nb_dist_m bus_list in
          Py.Ok (mkNearest (Py.slice_to stops max_results)
                   (Py.slice_to bus_list max_results))
      | Py.Raise e => Py.Raise e
      end
  | Py.Raise e => Py.Raise e
  end.

End Nearest.



Record CatalogEntry : Type := mkCatalogEntry {
  c_number : string;
  c_name : string;
  c_stops : list string;
  c_rating : R;
  c_reserved_disabled : Z;
  c_ramp : bool
}.

Definition BUS_CATALOG : list (string * CatalogEntry) :=
  [ ("PTC101", mkCatalogEntry "18C" "Amritsar → Jalandhar → Ludhiana → Patiala"
       ["Amritsar Railway Station"; "Golden Temple"; "Jalandhar Bus Stand";
        "Ludhiana Railway Station"; "Patiala Bus Stand"] 4.2 2 true);
    ("PTC102", mkCatalogEntry "21G" "Bathinda → Mansa → Barnala → Sangrur"
       ["Bathinda Railway Station"; "Mansa Bus Stand"; "Barnala Bus Stand";
        "Sangrur Railway Station"] 4.0 1 true);
    ("PTC103", mkCatalogEntry "70" "Ferozepur → Abohar → Fazilka → Muktsar"
       ["Ferozepur Railway Station"; "Abohar Bus Stand"; "Fazilka Bus Stand";
        "Muktsar Railway Station"] 4.5 0 false);
    ("PTC104", mkCatalogEntry "105"
       "Gurdaspur → Pathankot → Dera Baba Nanak → Batala"
       ["Gurdaspur Bus Stand"; "Pathankot Railway Station";
        "Dera Baba Nanak"; "Batala Bus Stand"] 4.1 1 false);
    ("PTC105", mkCatalogEntry "PU"
       "Punjab University → Chandigarh → Mohali → Kharar"
       ["Punjab University"; "Chandigarh Bus Stand"; "Mohali Bus Stand";
        "Kharar Bus Stand"] 4.3 2 true);
    ("PTC106", mkCatalogEntry "12B" "Amritsar → Tarn Taran → Patti → Ferozepur"
       ["Amritsar Railway Station"; "Tarn Taran"; "Patti";
        "Ferozepur Railway Station"] 4.0 1 true);
    ("PTC107", mkCatalogEntry "47A" "Ludhiana → Jagraon → Moga → Faridkot"
       ["Ludhiana Railway Station"; "Jagraon"; "Moga"; "Faridkot"]
       3.9 1 false) ].

Fixpoint catalog_get (k : string) (c : list (string * CatalogEntry))
    : option CatalogEntry :=
  match c with
  | [] => None
  | (k', e) :: rest => if String.eqb k' k then Some e else catalog_get k rest
  end.

(** The dictionary returned by [_merge_bus]. *)
Record Enriched : Type := mkEnriched {
  e_bus_id : string;
  e_latitude : option R;
  e_longitude : option R;
  e_occupancy : Z;
  e_route : option string;
  e_last_update : option Z;
  e_number : option string;
  e_name : option string;
  e_stops : list string;
  e_rating : option R;
  e_reserved_disabled : Z;
  e_ramp : bool;
  e_status : string;
  e_occupancy_label : string
}.

Section Enrich.

(** The built-in [hash] of the running process, on strings. *)
Variable hash : string -> Z.

(** The reading of [time.time()]. *)
Variable now : R.

(** The status rotation of [_merge_bus]. *)
Definition status_of (b : Bus) : string :=
  let spin := Py.floordiv now 300 in
  let h := Z.abs (hash (bus_id b)) in
  let pick := ((h + spin) mod 3)%Z in
  match Py.index ["on-time"; "delayed"; "early"] pick with
  | Py.Ok s => s
  | Py.Raise _ => "on-time"
  end.

(** [_merge_bus] *)
Definition _merge_bus (b : Bus) : Enriched :=
  let data := bus_to_dict b in
  let meta := catalog_get (bus_id b) BUS_CATALOG in
  let status := status_of b in
  let occ :=
    match d_occupancy data with
    | Some occ => occ
    | None =>
        let seed :=
          ((Z.abs (hash (bus_id b)) + Py.floordiv now 600 * 5) mod 50)%Z in
        (10 + seed)%Z
    end in
  let label :=
    if (80 <=? occ)%Z then "crowded"
    else if (60 <=? occ)%Z then "moderate"
    else "available" in
  mkEnriched (d_bus_id data) (d_latitude data) (d_longitude data) occ
    (d_route data) (d_last_update data)
    (option_map c_number meta)
    (option_map c_name meta)
    (match meta with Some m => c_stops m | None => [] end)
    (option_map c_rating meta)
    (match meta with Some m => c_reserved_disabled m | None => 0%Z end)
    (match meta with Some m => c_ramp m | None => false end)
    status label.

End Enrich.

(** The capacity of a vehicle, as [update_passenger_count] and the
    simulator have it. *)
Definition CAPACITY : Z := 50.

(** The rows kept by the four optional bounds. *)
Definition in_box (min_lat max_lat min_lon max_lon : option R) (b : Bus)
    : Prop :=
  (forall v, min_lat = Some v -> sql_ge (latitude b) v = true)
  /\ (forall v, max_lat = Some v -> sql_le (latitude b) v = true)
  /\ (forall v, min_lon = Some v -> sql_ge (longitude b) v = true)
  /\ (forall v, max_lon = Some v -> sql_le (longitude b) v = true).

(** Ascending in the key: every element is at most every later one. *)
Definition ascending_by {A} (key : A -> Z) (l : list A) : Prop :=
  StronglySorted (fun x y => (key x <= key y)%Z) l.


End Main.

(** ** Sample inputs *)

Module Sample.
Import MovingSim.
Local Open Scope string_scope.

(** A tape whose raw draws are all zero. *)
Definition tape0 : Py.rng := fun _ => 0%Z.

Definition depot_route : RouteDef :=
  mkRouteDef "Depot" [(31.6340, 74.8737)].

Definition empty_route : RouteDef := mkRouteDef "Empty" [].

(** A vehicle at the start of the first of two segments of 1 km each,
    at 36 km/h. *)
Definition loop_bus : BusThread :=
  mkBusThread "PTC101" "Loop" [(0, 0); (0, 1); (0, 0)] 5 0 0 20 36
    [mkSegment (0, 0) (0, 1) 1; mkSegment (0, 1) (0, 0) 1].

(** The same vehicle on two segments of a tenth of a millimetre. *)
Definition short_bus : BusThread :=
  mkBusThread "PTC102" "Short" [(0, 0); (0, 0); (0, 0)] 5 0 0 20 36
    [mkSegment (0, 0) (0, 0) (1 / 10000000);
     mkSegment (0, 0) (0, 0) (1 / 10000000)].

(** Two located buses, one at the query point of the examples and one
    half a turn of longitude away, and one row without coordinates. *)
Definition bus_here : Main.Bus :=
  Main.mkBus 1 "PTC101" (Some 0) (Some 0) (Some 12%Z) None (Some 0%Z).

Definition bus_far : Main.Bus :=
  Main.mkBus 2 "PTC102" (Some 0) (Some 180) (Some 30%Z) None (Some 0%Z).


Definition located_db : list Main.Bus := [bus_here; bus_far].


End Sample.

(** ** Notions used to state the properties of the simulator *)

(** An elapsed time is long for a vehicle when it covers every segment of
    its route that has a positive length. *)
Definition long_for (b : MovingSim.BusThread) (dt : R) : Prop :=
  forall s, In s (MovingSim.segments b) ->
    MovingSim.dist_km s <= 0
    \/ 1 <= MovingSim.speed_kmph b / 3600 * dt
             / Py.fmax (1 / 1000000) (MovingSim.dist_km s).

(** ** moving_sim.py: the route table and the fleet *)

From Stdlib Require DecimalString DecimalPos DecimalZ.

Module Fleet.
Import MovingSim.
Local Open Scope string_scope.

Definition ROUTES : list RouteDef :=
  [ mkRouteDef "Amritsar → Jalandhar → Ludhiana → Patiala"
      [(31.6340, 74.8737); (31.6200, 74.8765); (31.3256, 75.5792);
       (30.9010, 75.8573); (30.3398, 76.3869)];
    mkRouteDef "Bathinda → Mansa → Barnala → Sangrur"
      [(30.2110, 74.9455); (29.9881, 75.4017); (30.3745, 75.5486);
       (30.2450, 75.8447)];
    mkRouteDef "Ferozepur → Abohar → Fazilka → Muktsar"
      [(30.9153, 74.6100); (30.1445, 74.1995); (30.4017, 74.0283);
       (30.4745, 74.5169)];
    mkRouteDef "Gurdaspur → Pathankot → Dera Baba Nanak → Batala"
      [(32.0417, 75.4017); (32.2748, 75.6522); (32.0333, 75.0333);
       (31.8186, 75.2028)];
    mkRouteDef "Punjab University → Chandigarh → Mohali → Kharar"
      [(30.7589, 76.7681); (30.7333, 76.7794); (30.7041, 76.7177);
       (30.7456, 76.6544)];
    mkRouteDef "Amritsar → Tarn Taran → Patti → Ferozepur"
      [(31.6340, 74.8737); (31.4500, 74.9333); (31.2800, 74.8500);
       (30.9153, 74.6100)];
    mkRouteDef "Ludhiana → Jagraon → Moga → Faridkot"
      [(30.9010, 75.8573); (30.7833, 75.4833); (30.8167, 75.1667);
       (30.6667, 74.7500)];
    mkRouteDef "Bathinda → Malout → Muktsar → Fazilka"
      [(30.2110, 74.9455); (30.1833, 74.5000); (30.4745, 74.5169);
       (30.4017, 74.0283)];
    mkRouteDef "Patiala → Rajpura → Nabha → Sangrur"
      [(30.3398, 76.3869); (30.4833, 76.6000); (30.3667, 76.1500);
       (30.2450, 75.8447)];
    mkRouteDef "Chandigarh → Kharar → Rajpura → Patiala"
      [(30.7333, 76.7794); (30.7456, 76.6544); (30.4833, 76.6000);
       (30.3398, 76.3869)] ].

(** [NUM_BUSES = len(ROUTES)] when it is left to [None]. *)
Definition NUM_BUSES : Z := Z.of_nat (List.length ROUTES).

(** [str(n)] on an integer: its decimal writing. *)
Definition str_of_int (n : Z) : string :=
  DecimalString.NilZero.string_of_int (Z.to_int n).

(** The loop [for i in range(num_buses)] of [start_sim], from index [i]
    with [n] iterations to go: each iteration picks the route
    [ROUTES[i % len(ROUTES)]], names the bus [f"PTC{101 + i}"], builds its
    [BusThread] and appends it to [threads].  Starting the thread and the
    pause between two starts are left out. *)
Fixpoint spawn_from (i : Z) (n : nat) : Py.M (list BusThread) :=
  match n with
  | O => Py.ret []
  | S n' =>
      k <- Py.lift (Py.imod i (Z.of_nat (List.length ROUTES))) ;;
      route <- Py.lift (Py.index ROUTES k) ;;
      let bus_id := "PTC" ++ str_of_int (101 + i) in
      t <- init bus_id route POST_INTERVAL ;;
      threads <- spawn_from (i + 1) n' ;;
      Py.ret (t :: threads)
  end.

(** [start_sim], up to the end of its spawning loop: the list [threads]. *)
Definition start_sim (num_buses : Z) : Py.M (list BusThread) :=
  spawn_from 0 (Z.to_nat num_buses).

End Fleet.

(** ** main.py: the handlers over the [buses] table *)

Module Backend.
Import Main.
Local Open Scope string_scope.
Local Open Scope list_scope.

(** [HTTPException(status_code=..., detail=...)] *)
Record HTTPException : Type := mkHTTPException {
  status_code : Z;
  detail : string
}.

(** What a handler gives back: a body, or an [HTTPException]. *)
Inductive response (A : Type) : Type :=
| Reply (body : A)
| Abort (e : HTTPException).
Arguments Reply {A} body.
Arguments Abort {A} e.

(** What the [try] block of a handler can raise: an [HTTPException], or
    another exception, named by its class. *)
Inductive raised : Type :=
| RaisedHTTP (e : HTTPException)
| RaisedOther (class : string).

(** [db.query(Bus).filter(Bus.bus_id == bus_id).first()] *)
Definition first_bus (k : string) (db : list Bus) : option Bus :=
  find (fun b => String.eqb (bus_id b) k) db.

(** The attribute writes on the row object that [first()] returned, made
    durable by [db.commit()]. *)
Fixpoint mutate_first (k : string) (f : Bus -> Bus) (db : list Bus)
    : list Bus :=
  match db with
  | [] => []
  | b :: rest =>
      if String.eqb (bus_id b) k then f b :: rest
      else b :: mutate_first k f rest
  end.

(** The primary key given to a row inserted without one: one more than the
    largest key of the table. *)
Definition next_id (db : list Bus) : Z :=
  (1 + fold_right Z.max 0 (map id db))%Z.

(** The payload of [/update]. *)
Record BusUpdate : Type := mkBusUpdate {
  p_bus_id : string;
  p_latitude : R;
  p_longitude : R;
  p_occupancy : Z;
  p_route : option string
}.

(** [{"status": "ok", "bus_id": ...}] *)
Record UpdateOk : Type := mkUpdateOk {
  uo_status : string;
  uo_bus_id : string
}.

(** The values that an [INTEGER] column takes: the database driver refuses
    a Python integer outside the signed 64-bit range, and the statement
    that carries it raises [OverflowError]. *)
Definition fits_int64 (n : Z) : bool :=
  ((- 2 ^ 63 <=? n) && (n <? 2 ^ 63))%Z.

Section Update.

(** [str(e)] for the exception [e] that [db.commit()] raises on such an
    integer. *)
Variable overflow_text : string.

(** [update_bus], at clock reading [now], over the rows [db]; the second
    component is the table after the call.  The coordinates of the payload
    are finite floats.  The writes of the [try] block are pending until
    [db.commit()]; when it raises, the handler rolls them back and answers
    500, so the table is left as it was. *)
Definition update_bus (payload : BusUpdate) (now : R) (db : list Bus)
    : response UpdateOk * list Bus :=
  let bus := first_bus (p_bus_id payload) db in
  let now_ts := Py.int_of_float now in
  let pending :=
    match bus with
    | Some bus =>
        let write (row : Bus) :=
          mkBus (id row) (bus_id row)
            (Some (p_latitude payload)) (Some (p_longitude payload))
            (Some (p_occupancy payload)) (p_route payload) (Some now_ts) in
        (bus, mutate_first (p_bus_id payload) write db)
    | None =>
        let bus :=
          mkBus (next_id db) (p_bus_id payload)
            (Some (p_latitude payload)) (Some (p_longitude payload))
            (Some (p_occupancy payload)) (p_route payload) (Some now_ts) in
        (bus, db ++ [bus])
    end in
  if fits_int64 (p_occupancy payload)
  then (Reply (mkUpdateOk "ok" (bus_id (fst pending))), snd pending)
  else
    (Abort (mkHTTPException 500
              ("Internal server error (update): " ++ overflow_text)%string),
     db).

(** The table after a sequence of [/update] calls, each with its clock
    reading. *)
Definition after_updates (calls : list (BusUpdate * R)) (db : list Bus)
    : list Bus :=
  fold_left (fun t c => snd (update_bus (fst c) (snd c) t)) calls db.

End Update.

(** What [update_bus] writes. *)
Definition written (payload : BusUpdate) (now : R) (row : Bus) : Bus :=
  mkBus (id row) (bus_id row)
    (Some (p_latitude payload)) (Some (p_longitude payload))
    (Some (p_occupancy payload)) (p_route payload)
    (Some (Py.int_of_float now)).

(** The [try] block of [get_bus]. *)
Definition get_bus_try (k : string) (db : list Bus) : raised + BusDict :=
  match first_bus k db with
  | None => inl (RaisedHTTP (mkHTTPException 404 "Bus not found"))
  | Some bus => inr (bus_to_dict bus)
  end.

(** [get_bus]: an [HTTPException] is re-raised, anything else becomes a
    500. *)
Definition get_bus (k : string) (db : list Bus) : response BusDict :=
  match get_bus_try k db with
  | inr d => Reply d
  | inl (RaisedHTTP e) => Abort e
  | inl (RaisedOther _) =>
      Abort (mkHTTPException 500 "Internal server error (get bus)")
  end.

(** [{"status": "ok", "new_count": bus.occupancy}] *)
Record CountOk : Type := mkCountOk {
  co_status : string;
  co_new_count : option Z
}.

Definition set_occupancy (n : Z) (row : Bus) : Bus :=
  mkBus (id row) (bus_id row) (latitude row) (longitude row) (Some n)
    (route row) (last_update row).

(** The [try] block of [update_passenger_count]; [None + 1] raises
    [TypeError] before anything is written. *)
Definition update_passenger_count_try (k action : string) (db : list Bus)
    : (raised + CountOk) * list Bus :=
  match first_bus k db with
  | None => (inl (RaisedHTTP (mkHTTPException 404 "Bus not found")), db)
  | Some bus =>
      if String.eqb action "increment" then
        match occupancy bus with
        | None => (inl (RaisedOther "TypeError"), db)
        | Some occ =>
            let n := Z.min 50 (occ + 1) in
            (inr (mkCountOk "ok" (Some n)),
             mutate_first k (set_occupancy n) db)
        end
      else if String.eqb action "decrement" then
        match occupancy bus with
        | None => (inl (RaisedOther "TypeError"), db)
        | Some occ =>
            let n := Z.max 0 (occ - 1) in
            (inr (mkCountOk "ok" (Some n)),
             mutate_first k (set_occupancy n) db)
        end
      else (inr (mkCountOk "ok" (occupancy bus)), db)
  end.

(** [update_passenger_count]: its single handler, [except Exception],
    also catches the 404 raised in the [try] block. *)
Definition update_passenger_count (k action : string) (db : list Bus)
    : response CountOk * list Bus :=
  match update_passenger_count_try k action db with
  | (inr ok, db') => (Reply ok, db')
  | (inl _, db') =>
      (Abort (mkHTTPException 500 "Failed to update passenger count"), db')
  end.

(** The count that [update_passenger_count] stores for an action. *)
Definition counted (action : string) (occ : Z) : Z :=
  if String.eqb action "increment" then Z.min 50 (occ + 1)
  else if String.eqb action "decrement" then Z.max 0 (occ - 1)
  else occ.

(** The placeholder of [get_buses_enriched] for a catalog entry without a
    row: it has no [last_update], [reserved_disabled] or [ramp] key. *)
Record Placeholder : Type := mkPlaceholder {
  ph_bus_id : string;
  ph_latitude : option R;
  ph_longitude : option R;
  ph_occupancy : Z;
  ph_route : string;
  ph_number : string;
  ph_name : string;
  ph_stops : list string;
  ph_rating : R;
  ph_status : string;
  ph_occupancy_label : string
}.

Inductive View : Type :=
| Live (e : Enriched)
| Missing (p : Placeholder).

Definition view_bus_id (v : View) : string :=
  match v with
  | Live e => e_bus_id e
  | Missing p => ph_bus_id p
  end.

(** A dictionary of enriched buses keyed by [bus_id], in insertion order. *)
Fixpoint merged_set (d : list (string * Enriched)) (k : string)
    (v : Enriched) : list (string * Enriched) :=
  match d with
  | [] => [(k, v)]
  | (k', v') :: rest =>
      if String.eqb k' k then (k', v) :: rest
      else (k', v') :: merged_set rest k v
  end.

Fixpoint merged_get (d : list (string * Enriched)) (k : string)
    : option Enriched :=
  match d with
  | [] => None
  | (k', v) :: rest => if String.eqb k' k then Some v else merged_get rest k
  end.

(** The body of the loop [for bid in ids] of [get_buses_enriched];
    [BUS_CATALOG[bid]] raises [KeyError] on a missing key. *)
Definition enriched_view (merged : list (string * Enriched)) (bid : string)
    : raised + View :=
  match merged_get merged bid with
  | Some e => inr (Live e)
  | None =>
      match catalog_get bid BUS_CATALOG with
      | None => inl (RaisedOther "KeyError")
      | Some meta =>
          inr (Missing
                 (mkPlaceholder bid None None 0 (c_name meta)
                    (c_number meta) (c_name meta) (c_stops meta)
                    (c_rating meta) "on-time" "available"))
      end
  end.

Fixpoint views_of (merged : list (string * Enriched)) (ids : list string)
    : raised + list View :=
  match ids with
  | [] => inr []
  | bid :: rest =>
      match enriched_view merged bid with
      | inl e => inl e
      | inr v =>
          match views_of merged rest with
          | inl e => inl e
          | inr vs => inr (v :: vs)
          end
      end
  end.

(** [get_buses_enriched], with the process hash and the clock reading. *)
Definition get_buses_enriched (hash : string -> Z) (now : R)
    (db : list Bus) : response (list View) :=
  let ids := map fst BUS_CATALOG in
  let buses := filter (fun b => existsb (String.eqb (bus_id b)) ids) db in
  let merged :=
    fold_left (fun d b => merged_set d (bus_id b) (_merge_bus hash now b))
      buses [] in
  match views_of merged ids with
  | inr out => Reply out
  | inl _ =>
      Abort (mkHTTPException 500 "Failed to fetch enriched buses")
  end.

End Backend.

(** ** main.py: users and bookings *)

Module Accounts.
Import Backend.
Local Open Scope string_scope.
Local Open Scope list_scope.

(** A row of the [users] table. *)
Record User : Type := mkUser {
  user_id : Z;
  username : string;
  password : string;
  token : option string;
  phone : option string
}.

Record UserCreate : Type := mkUserCreate {
  uc_username : string;
  uc_password : string;
  uc_phone : option string
}.

(** [{"status": "ok", "id": ..., "username": ...}] *)
Record RegisterOk : Type := mkRegisterOk {
  ro_status : string;
  ro_id : Z;
  ro_username : string
}.

(** [{"status": "ok", "token": ..., "username": ..., "phone": ...}] *)
Record LoginOk : Type := mkLoginOk {
  lo_status : string;
  lo_token : string;
  lo_username : string;
  lo_phone : option string
}.

(** [db.query(User).filter(User.username == username).first()] *)
Definition first_user (name : string) (db : list User) : option User :=
  find (fun u => String.eqb (username u) name) db.

Definition next_user_id (db : list User) : Z :=
  (1 + fold_right Z.max 0 (map user_id db))%Z.

(** [register] *)
Definition register (user : UserCreate) (db : list User)
    : response RegisterOk * list User :=
  match first_user (uc_username user) db with
  | Some _ =>
      (Abort (mkHTTPException 400 "Username already taken"), db)
  | None =>
      let new_user :=
        mkUser (next_user_id db) (uc_username user) (uc_password user)
          None (uc_phone user) in
      (Reply (mkRegisterOk "ok" (user_id new_user) (username new_user)),
       db ++ [new_user])
  end.

Fixpoint set_token (name tok : string) (db : list User) : list User :=
  match db with
  | [] => []
  | u :: rest =>
      if String.eqb (username u) name
      then mkUser (user_id u) (username u) (password u) (Some tok) (phone u)
             :: rest
      else u :: set_token name tok rest
  end.

(** [login]; [fresh] is the value of [uuid4().hex]. *)
Definition login (name pw fresh : string) (db : list User)
    : response LoginOk * list User :=
  match first_user name db with
  | None => (Abort (mkHTTPException 401 "Invalid credentials"), db)
  | Some user =>
      if negb (String.eqb (password user) pw)
      then (Abort (mkHTTPException 401 "Invalid credentials"), db)
      else
        let token := fresh in
        (Reply (mkLoginOk "ok" token (username user) (phone user)),
         set_token name token db)
  end.

(** A Python [str] is a sequence of characters (code points); here it is
    held as its UTF-8 bytes.  A byte [10xxxxxx] continues the character
    that the byte before it belongs to; any other byte begins one. *)
Definition is_continuation (c : ascii) : bool :=
  match c with
  | Ascii _ _ _ _ _ _ b6 b7 => b7 && negb b6
  end.

(** The characters of a string, in order: each is a first byte followed
    by its continuation bytes. *)
Fixpoint chars (s : string) : list string :=
  match s with
  | EmptyString => []
  | String c rest =>
      let following := chars rest in
      match rest, following with
      | String d _, g :: gs =>
          if is_continuation d
          then String c g :: gs
          else String c EmptyString :: following
      | _, _ => String c EmptyString :: following
      end
  end.

(** The string made of a sequence of characters. *)
Definition join (cs : list string) : string :=
  fold_right String.append EmptyString cs.

(** [s[-4:]]: the last four characters, or all of a shorter string. *)
Definition last4 (s : string) : string :=
  let cs := chars s in
  join (skipn (List.length cs - 4) cs).

(** [get_user_last4]; a missing or empty phone is a 404 too. *)
Definition get_user_last4 (name : string) (db : list User)
    : response string :=
  match first_user name db with
  | None => Abort (mkHTTPException 404 "User not found")
  | Some u =>
      match phone u with
      | None => Abort (mkHTTPException 404 "User not found")
      | Some p =>
          if String.eqb p ""
          then Abort (mkHTTPException 404 "User not found")
          else Reply (last4 p)
      end
  end.

End Accounts.

Module Bookings.
Import Backend.
Local Open Scope string_scope.
Local Open Scope list_scope.

(** A row of the [bookings] table; every column but the key is nullable. *)
Record Booking : Type := mkBooking {
  pk : Z;
  booking_id : option string;
  username : option string;
  phone : option string;
  bus_number : option string;
  route : option string;
  seat : option Z;
  fare : option Z;
  created_at : option Z
}.


(** An element of the list that [list_bookings] returns. *)
Record BookingDict : Type := mkBookingDict {
  d_booking_id : option string;
  d_username : option string;
  d_phone : option string;
  d_bus_number : option string;
  d_route : option string;
  d_seat : option Z;
  d_fare : option Z;
  d_created_at : option Z
}.



(** The SQL predicate [column == value]: NULL matches nothing. *)
Definition sql_eq (col : option string) (v : string) : bool :=
  match col with
  | Some c => String.eqb c v
  | None => false
  end.

(** [if value: q = q.filter(column == value)]: [None] and the empty
    string are falsy. *)
Definition filter_truthy (value : option string)
    (col : Booking -> option string) (q : list Booking) : list Booking :=
  match value with
  | None => q
  | Some v =>
      if String.eqb v "" then q
      else filter (fun b => sql_eq (col b) v) q
  end.

(** [a > b] on a nullable integer column, NULL below every value. *)
Definition newer (a b : option Z) : bool :=
  match a, b with
  | Some x, Some y => (y <? x)%Z
  | Some _, None => true
  | None, _ => false
  end.

(** [order_by(Booking.created_at.desc())]: newest first, NULL last, rows
    of the same instant in table order. *)
Fixpoint insert_desc (x : Booking) (l : list Booking) : list Booking :=
  match l with
  | [] => [x]
  | y :: rest =>
      if newer (created_at y) (created_at x)
      then y :: insert_desc x rest
      else x :: l
  end.

Definition order_desc (l : list Booking) : list Booking :=
  fold_right insert_desc [] l.

Definition to_dict (b : Booking) : BookingDict :=
  mkBookingDict (booking_id b) (username b) (phone b) (bus_number b)
    (route b) (seat b) (fare b) (created_at b).

(** [list_bookings] *)
Definition list_bookings (phone_q username_q : option string)
    (db : list Booking) : list BookingDict :=
  let q := db in
  let q := filter_truthy phone_q phone q in
  let q := filter_truthy username_q username q in
  map to_dict (firstn 100 (order_desc q)).

(** Newest first: no later row is strictly newer than an earlier one. *)
Definition newest_first (l : list Booking) : Prop :=
  StronglySorted
    (fun x y => newer (created_at y) (created_at x) = false) l.

(** The rows that a query selects, before ordering and truncation. *)
Definition selected (phone_q username_q : option string)
    (db : list Booking) : list Booking :=
  filter_truthy username_q username (filter_truthy phone_q phone db).

End Bookings.

(** The status that follows a status in the rotation of [_merge_bus]. *)
Definition next_status (s : string) : string :=
  if String.eqb s "on-time" then "delayed"%string
  else if String.eqb s "delayed" then "early"%string
  else "on-time"%string.

(** ** Sample tables *)

Module SampleStore.
Local Open Scope string_scope.

(** The text with which the SQLite driver refuses an integer outside 64
    bits. *)
Definition overflow_text : string :=
  "Python int too large to convert to SQLite INTEGER".

(** An update whose occupancy is [2 ** 63]. *)
Definition update_big : Backend.BusUpdate :=
  Backend.mkBusUpdate "PTC101" 31.6340 74.8737 (2 ^ 63) (Some "Amritsar").

Definition update_a : Backend.BusUpdate :=
  Backend.mkBusUpdate "PTC101" 31.6340 74.8737 12 (Some "Amritsar").

Definition update_b : Backend.BusUpdate :=
  Backend.mkBusUpdate "PTC102" 30.2110 74.9455 49 None.

Definition update_a2 : Backend.BusUpdate :=
  Backend.mkBusUpdate "PTC101" 31.6200 74.8765 50 (Some "Amritsar").

(** The table after three updates of two buses. *)
Definition two_buses : list Main.Bus :=
  Backend.after_updates overflow_text
    [(update_a, 100); (update_b, 200); (update_a2, 300)] [].

End SampleStore.


(** * Properties *)

(** ** The Python runtime model *)

Lemma index_in_range {A} (l : list A) (i : Z) :
  (0 <= i < Z.of_nat (List.length l))%Z ->
  exists a, Py.index l i = Py.Ok a /\ nth_error l (Z.to_nat i) = Some a.
Proof.
  intros Hi. unfold Py.index.
  destruct (Z.ltb_spec i 0) as [Hneg | _]; [lia |].
  destruct (Z.leb_spec 0 i) as [_ | Hneg]; [| lia].
  destruct (Z.ltb_spec i (Z.of_nat (List.length l))) as [_ | Hbig]; [| lia].
  cbn [andb].
  destruct (nth_error l (Z.to_nat i)) as [a |] eqn:Hnth.
  - exists a. split; reflexivity.
  - apply nth_error_None in Hnth. lia.
Qed.

Lemma index_ok_nonempty {A} (l : list A) (i : Z) (a : A) :
  Py.index l i = Py.Ok a -> l <> [].
Proof.
  intros H ->. unfold Py.index in H. cbn in H.
  destruct (i <? 0)%Z; cbn in H.
  - destruct (0 <=? i + 0)%Z, (i + 0 <? 0)%Z; cbn in H; try discriminate.
    destruct (Z.to_nat (i + 0)); discriminate.
  - destruct (0 <=? i)%Z, (i <? 0)%Z; cbn in H; try discriminate.
    destruct (Z.to_nat i); discriminate.
Qed.

Lemma random_unit (g : Py.rng) :
  exists u, Py.random g = Py.Ok (u, Py.rng_tail g) /\ 0 <= u < 1.
Proof.
  unfold Py.random. eexists. split; [reflexivity |].
  pose proof (Z.mod_pos_bound (Py.rng_head g) (2 ^ 53) ltac:(lia)) as [Hlo Hhi].
  assert (H53 : 0 < IZR (2 ^ 53)) by (apply IZR_lt; lia).
  apply IZR_le in Hlo. apply IZR_lt in Hhi.
  split.
  - apply Rmult_le_pos; [exact Hlo | left; apply Rinv_0_lt_compat; exact H53].
  - apply Rmult_lt_reg_r with (IZR (2 ^ 53)); [exact H53 |].
    unfold Rdiv. rewrite Rmult_assoc, Rinv_l by lra. lra.
Qed.

Lemma randint_range (a b : Z) (g : Py.rng) :
  (a <= b)%Z ->
  exists n, Py.randint a b g = Py.Ok (n, Py.rng_tail g) /\ (a <= n <= b)%Z.
Proof.
  intros Hab. unfold Py.randint.
  destruct (Z.ltb_spec b a) as [Hlt | _]; [lia |].
  eexists. split; [reflexivity |].
  pose proof (Z.mod_pos_bound (Py.rng_head g) (b - a + 1) ltac:(lia)). lia.
Qed.

Lemma fmax_floor (x y : R) : x <= Py.fmax x y /\ y <= Py.fmax x y.
Proof. unfold Py.fmax. destruct (Rlt_dec x y); lra. Qed.

Lemma fmax_above (x y : R) : x <= y -> Py.fmax x y = y.
Proof. intros H. unfold Py.fmax. destruct (Rlt_dec x y); lra. Qed.

Lemma bind_ok {A B} (m : Py.M A) (k : A -> Py.M B) (g : Py.rng)
    (a : A) (g' : Py.rng) :
  m g = Py.Ok (a, g') -> Py.bind m k g = k a g'.
Proof. intros H. unfold Py.bind. rewrite H. reflexivity. Qed.

(** ** The simulator *)

Module SimProps.
Import MovingSim.

(** A call that does not complete the segment only moves [frac]. *)
Lemma step_advance (self : BusThread) (seg : Segment) (dt : R) (g : Py.rng) :
  Py.index (segments self) (current_segment self) = Py.Ok seg ->
  0 < dist_km seg ->
  advance self seg dt < 1 ->
  step self dt g = Py.Ok (with_frac self (advance self seg dt), g).
Proof.
  intros Hidx Hpos Hlt. unfold step, Py.bind, Py.lift. rewrite Hidx.
  destruct (Rle_dec (dist_km seg) 0) as [Hle | _]; [lra |].
  unfold Py.fdiv.
  destruct (Req_dec_T (Py.fmax (1 / 1000000) (dist_km seg)) 0) as [H0 | _].
  { pose proof (fmax_floor (1 / 1000000) (dist_km seg)). lra. }
  unfold Py.ret. fold (advance self seg dt).
  destruct (Rle_dec 1 (advance self seg dt)) as [Hge | _]; [lra |].
  reflexivity.
Qed.

(** The passenger exchange of a completed segment keeps the occupancy
    within the capacity and never raises. *)
Lemma step_arrive (self : BusThread) (seg : Segment) (dt : R) (g : Py.rng) :
  Py.index (segments self) (current_segment self) = Py.Ok seg ->
  occupancy_ok self ->
  dist_km seg <= 0 \/ (0 < dist_km seg /\ 1 <= advance self seg dt) ->
  exists self' g',
    step self dt g = Py.Ok (self', g')
    /\ frac self' = 0
    /\ current_segment self'
       = ((current_segment self + 1)
            mod Z.of_nat (List.length (segments self)))%Z
    /\ occupancy_ok self'
    /\ (occupancy self - 3 <= occupancy self' <= occupancy self + 2)%Z
    /\ segments self' = segments self
    /\ speed_kmph self' = speed_kmph self.
Proof.
  intros Hidx Hocc Hcase. unfold occupancy_ok in *.
  assert (Hlen : Z.of_nat (List.length (segments self)) <> 0%Z).
  { apply index_ok_nonempty in Hidx.
    destruct (segments self); [congruence | cbn; lia]. }
  unfold step.
  rewrite (bind_ok _ _ g seg g) by (unfold Py.lift; rewrite Hidx; reflexivity).
  match goal with
  | |- exists _ _, Py.bind ?m _ _ = _ /\ _ =>
      assert (Hfrac : exists f, 1 <= f /\ m g = Py.Ok (f, g))
  end.
  { destruct (Rle_dec (dist_km seg) 0) as [Hle | Hgt].
    - exists 1. split; [lra | reflexivity].
    - destruct Hcase as [Hle | [Hpos Hge]]; [lra |].
      exists (advance self seg dt). split; [exact Hge |].
      erewrite bind_ok; [reflexivity |].
      unfold Py.lift, Py.fdiv.
      destruct (Req_dec_T (Py.fmax (1 / 1000000) (dist_km seg)) 0)
        as [H0 | _]; [| reflexivity].
      pose proof (fmax_floor (1 / 1000000) (dist_km seg)). lra. }
  destruct Hfrac as (f & Hf & Hrun).
  rewrite (bind_ok _ _ g f g Hrun).
  destruct (Rle_dec 1 f) as [_ | Hn]; [| lra].
  destruct (random_unit g) as (u1 & Hu1 & _).
  rewrite (bind_ok _ _ _ _ _ Hu1).
  set (g1 := Py.rng_tail g).
  match goal with
  | |- exists _ _, Py.bind ?m _ _ = _ /\ _ =>
      assert (Halight : exists occ1 g2,
                m g1 = Py.Ok (occ1, g2)
                /\ (0 <= occ1 <= 50)%Z
                /\ (occupancy self - 3 <= occ1 <= occupancy self)%Z)
  end.
  { destruct (Rlt_dec u1 (3 / 10)).
    - destruct (randint_range 0 (Z.min 3 (occupancy self)) g1 ltac:(lia))
        as (k & Hk & Hr).
      do 2 eexists. rewrite (bind_ok _ _ _ _ _ Hk).
      split; [reflexivity | lia].
    - do 2 eexists. split; [reflexivity | lia]. }
  destruct Halight as (occ1 & g2 & Hal & Hocc1 & Hd1).
  rewrite (bind_ok _ _ _ _ _ Hal).
  rewrite (bind_ok _ _ g2
             ((current_segment self + 1)
                mod Z.of_nat (List.length (segments self)))%Z g2).
  2:{ unfold Py.lift, Py.imod.
      destruct (Z.eqb_spec (Z.of_nat (List.length (segments self))) 0)
        as [H0 | _]; [contradiction | reflexivity]. }
  destruct (random_unit g2) as (u2 & Hu2 & _).
  rewrite (bind_ok _ _ _ _ _ Hu2).
  set (g3 := Py.rng_tail g2).
  match goal with
  | |- exists _ _, Py.bind ?m _ _ = _ /\ _ =>
      assert (Hboard : exists occ2 g4,
                m g3 = Py.Ok (occ2, g4)
                /\ (0 <= occ2 <= 50)%Z
                /\ (occ1 <= occ2 <= occ1 + 2)%Z)
  end.
  { destruct (Rlt_dec u2 (2 / 10)).
    - destruct (randint_range 0 (Z.min 2 (50 - occ1)) g3 ltac:(lia))
        as (k & Hk & Hr).
      do 2 eexists. rewrite (bind_ok _ _ _ _ _ Hk).
      split; [reflexivity | lia].
    - do 2 eexists. split; [reflexivity | lia]. }
  destruct Hboard as (occ2 & g4 & Hbo & Hocc2 & Hd2).
  rewrite (bind_ok _ _ _ _ _ Hbo).
  destruct (Z.ltb_spec 50 occ2) as [Hbig | _]; [lia |].
  do 2 eexists. split; [reflexivity |].
  cbn. repeat split; lia.
Qed.

Lemma uniform_range (a b : R) (g : Py.rng) :
  a <= b ->
  exists x, Py.uniform a b g = Py.Ok (x, Py.rng_tail g) /\ a <= x <= b.
Proof.
  intros Hab. unfold Py.uniform.
  destruct (random_unit g) as (u & Hu & Hu01).
  rewrite (bind_ok _ _ _ _ _ Hu).
  eexists. split; [reflexivity | nra].
Qed.

(** What the constructor returns, for every route definition. *)
Lemma init_spec (id : string) (rd : RouteDef) (pi : R) (g : Py.rng) :
  exists occ spd,
    (8 <= occ <= 35)%Z /\ 22 <= spd <= 28 /\
    init id rd pi g =
      match stops rd with
      | [] => Py.Raise Py.IndexError
      | w0 :: _ =>
          Py.Ok (mkBusThread id (name rd) (stops rd) pi 0 0 occ spd
                   (match build_segments (stops rd) with
                    | [] => [mkSegment w0 w0 (1 / 10)]
                    | s :: segs => s :: segs
                    end),
                 Py.rng_tail (Py.rng_tail g))
      end.
Proof.
  destruct (randint_range 8 35 g ltac:(lia)) as (occ & Hocc & Hr).
  destruct (uniform_range 22 28 (Py.rng_tail g) ltac:(lra))
    as (spd & Hspd & Hs).
  exists occ, spd. split; [exact Hr |]. split; [exact Hs |].
  unfold init.
  rewrite (bind_ok _ _ _ _ _ Hocc), (bind_ok _ _ _ _ _ Hspd).
  destruct (stops rd) as [| w0 rest] eqn:Hst.
  - reflexivity.
  - destruct (build_segments (w0 :: rest)) as [| s segs] eqn:Hb;
      reflexivity.
Qed.

Lemma init_invariant (id : string) (rd : RouteDef) (pi : R)
    (g g' : Py.rng) (b : BusThread) :
  init id rd pi g = Py.Ok (b, g') ->
  (8 <= occupancy b <= 35)%Z /\ segment_ok b /\ frac b = 0
  /\ 22 <= speed_kmph b <= 28.
Proof.
  intros H.
  destruct (init_spec id rd pi g) as (occ & spd & Hocc & Hspd & Heq).
  rewrite Heq in H. destruct (stops rd) as [| w0 rest]; [discriminate |].
  injection H as <- _. unfold segment_ok.
  cbn [occupancy current_segment frac speed_kmph segments].
  repeat split; try lia; try lra.
  destruct rest; cbn [List.length]; lia.
Qed.

(** One call preserves the invariant of a constructed vehicle, and
    returns. *)
Lemma step_invariant (b : BusThread) (dt : R) (g : Py.rng) :
  occupancy_ok b -> segment_ok b ->
  exists b' g',
    step b dt g = Py.Ok (b', g') /\ occupancy_ok b' /\ segment_ok b'.
Proof.
  intros Hocc Hseg.
  destruct (index_in_range (segments b) (current_segment b) Hseg)
    as (seg & Hidx & _).
  assert (Hmod :
    (0 <= (current_segment b + 1) mod Z.of_nat (List.length (segments b))
     < Z.of_nat (List.length (segments b)))%Z).
  { apply Z.mod_pos_bound. unfold segment_ok in Hseg. lia. }
  destruct (Rle_dec (dist_km seg) 0) as [Hle | Hgt].
  - destruct (step_arrive b seg dt g Hidx Hocc (or_introl Hle))
      as (b' & g' & Hstep & _ & Hcs & Hocc' & _ & Hsegs & _).
    exists b', g'. split; [exact Hstep |]. split; [exact Hocc' |].
    unfold segment_ok. rewrite Hcs, Hsegs. exact Hmod.
  - destruct (Rle_dec 1 (advance b seg dt)) as [Hge | Hlt].
    + destruct (step_arrive b seg dt g Hidx Hocc
                  (or_intror (conj (Rnot_le_lt _ _ Hgt) Hge)))
        as (b' & g' & Hstep & _ & Hcs & Hocc' & _ & Hsegs & _).
      exists b', g'. split; [exact Hstep |]. split; [exact Hocc' |].
      unfold segment_ok. rewrite Hcs, Hsegs. exact Hmod.
    + exists (with_frac b (advance b seg dt)), g.
      split; [apply step_advance; [exact Hidx | lra | lra] |].
      split; [exact Hocc | exact Hseg].
Qed.

Lemma run_invariant (dts : list R) :
  forall (b : BusThread) (g : Py.rng),
    occupancy_ok b -> segment_ok b ->
    exists tr g',
      run b dts g = Py.Ok (tr, g')
      /\ List.length tr = List.length dts
      /\ Forall occupancy_ok tr.
Proof.
  induction dts as [| dt rest IH]; intros b g Hocc Hseg.
  - exists [], g. repeat split. constructor.
  - destruct (step_invariant b dt g Hocc Hseg)
      as (b1 & g1 & Hstep & Hocc1 & Hseg1).
    destruct (IH b1 g1 Hocc1 Hseg1) as (tr & g2 & Hrun & Hlen & Hall).
    exists (b1 :: tr), g2. cbn [run].
    rewrite (bind_ok _ _ _ _ _ Hstep), (bind_ok _ _ _ _ _ Hrun).
    split; [reflexivity |]. split; [cbn; lia |].
    constructor; assumption.
Qed.

(** C2. A vehicle built by the constructor starts with an occupancy in
    [[8, 35]]; whatever the tape of random draws and whatever the elapsed
    times, every call of a sequence of [step] calls returns, and the
    occupancy after each call is an integer in [[0, 50]]. *)
Theorem occupancy_within_capacity
    (id : string) (rd : RouteDef) (pi : R) (g g' : Py.rng) (b : BusThread) :
  init id rd pi g = Py.Ok (b, g') ->
  (8 <= occupancy b <= 35)%Z
  /\ forall (dts : list R) (g1 : Py.rng),
       exists tr g2,
         run b dts g1 = Py.Ok (tr, g2)
         /\ List.length tr = List.length dts
         /\ Forall (fun s => (0 <= occupancy s <= 50)%Z) tr.
Proof.
  intros Hinit.
  destruct (init_invariant id rd pi g g' b Hinit) as (Hocc & Hseg & _).
  split; [exact Hocc |].
  intros dts g1. apply run_invariant; [unfold occupancy_ok; lia | exact Hseg].
Qed.

(** C8. On a vehicle whose occupancy is in [[0, 50]] and whose segment
    index is within the segment list, [step] and [get_current_latlon]
    return for every elapsed time and every tape: the segment lookup is in
    range, the divisor of the progress is never zero, and the passenger
    draws have a non-empty range. *)
Theorem step_and_position_never_raise
    (b : BusThread) (dt : R) (g : Py.rng) :
  occupancy_ok b -> segment_ok b ->
  (exists b' g', step b dt g = Py.Ok (b', g'))
  /\ (exists p g', get_current_latlon b g = Py.Ok (p, g'))
  /\ (exists seg,
        Py.index (segments b) (current_segment b) = Py.Ok seg
        /\ exists q,
             Py.fdiv (speed_kmph b / 3600 * dt)
               (Py.fmax (1 / 1000000) (dist_km seg)) = Py.Ok q).
Proof.
  intros Hocc Hseg. split; [| split].
  - destruct (step_invariant b dt g Hocc Hseg) as (b' & g' & H & _).
    exists b', g'. exact H.
  - destruct (index_in_range (segments b) (current_segment b) Hseg)
      as (seg & Hidx & _).
    unfold get_current_latlon.
    rewrite (bind_ok _ _ g seg g)
      by (unfold Py.lift; rewrite Hidx; reflexivity).
    assert (HJ : - SIMULATION_JITTER <= SIMULATION_JITTER)
      by (unfold SIMULATION_JITTER; lra).
    destruct (uniform_range _ _ g HJ) as (j1 & Hj1 & _).
    destruct (uniform_range _ _ (Py.rng_tail g) HJ) as (j2 & Hj2 & _).
    rewrite (bind_ok _ _ _ _ _ Hj1), (bind_ok _ _ _ _ _ Hj2).
    do 2 eexists. reflexivity.
  - destruct (index_in_range (segments b) (current_segment b) Hseg)
      as (seg & Hidx & _).
    exists seg. split; [exact Hidx |].
    unfold Py.fdiv.
    destruct (Req_dec_T (Py.fmax (1 / 1000000) (dist_km seg)) 0)
      as [H0 | _].
    + pose proof (fmax_floor (1 / 1000000) (dist_km seg)). lra.
    + eexists. reflexivity.
Qed.

(** C10. A call [step dt] that does not complete the current segment
    (positive segment length, advanced progress below 1) returns the same
    vehicle with only [frac] moved: occupancy, segment index and every
    other attribute are unchanged, and no random draw is consumed. *)
Theorem step_changes_only_frac
    (self : BusThread) (seg : Segment) (dt : R) (g : Py.rng) :
  0 <= dt ->
  Py.index (segments self) (current_segment self) = Py.Ok seg ->
  0 < dist_km seg ->
  frac self
  + speed_kmph self / 3600 * dt / Py.fmax (1 / 1000000) (dist_km seg) < 1 ->
  exists self',
    step self dt g = Py.Ok (self', g)
    /\ occupancy self' = occupancy self
    /\ current_segment self' = current_segment self
    /\ segments self' = segments self
    /\ speed_kmph self' = speed_kmph self
    /\ waypoints self' = waypoints self
    /\ bus_id self' = bus_id self
    /\ route_name self' = route_name self
    /\ post_interval self' = post_interval self.
Proof.
  intros _ Hidx Hpos Hlt.
  exists (with_frac self (advance self seg dt)).
  split; [apply step_advance; assumption |].
  cbn. repeat split.
Qed.

(** C7, as the code has it. A route of exactly one waypoint [w] is
    accepted by the constructor and gets exactly one segment, from [w] to
    [w], of nominal length 0.1 km; on it the divisor of [step] is 0.1, and
    [step] returns for every elapsed time. *)
Theorem single_waypoint_route
    (id nm : string) (w : GeoPoint) (pi : R) (g : Py.rng) :
  exists b g',
    init id (mkRouteDef nm [w]) pi g = Py.Ok (b, g')
    /\ segments b = [mkSegment w w (1 / 10)]
    /\ (forall seg, In seg (segments b) ->
          seg_a seg = seg_b seg /\ dist_km seg = 1 / 10
          /\ Py.fmax (1 / 1000000) (dist_km seg) = 1 / 10)
    /\ forall (dt : R) (g1 : Py.rng),
         exists b' g1', step b dt g1 = Py.Ok (b', g1').
Proof.
  destruct (init_spec id (mkRouteDef nm [w]) pi g)
    as (occ & spd & Hocc & Hspd & Heq).
  cbn [stops build_segments name] in Heq.
  do 2 eexists. split; [exact Heq |].
  cbn [segments]. split; [reflexivity |]. split.
  - intros seg [<- | []]. cbn. repeat split.
    apply fmax_above. lra.
  - intros dt g1.
    match goal with
    | |- exists _ _, step ?b _ _ = _ =>
        destruct (step_invariant b dt g1) as (b' & g1' & H & _)
    end.
    + unfold occupancy_ok. cbn. lia.
    + unfold segment_ok. cbn. lia.
    + exists b', g1'. exact H.
Qed.

(** C7, counterexample: a route with no waypoint has fewer than two
    waypoints, and the constructor raises [IndexError] on it. *)
Lemma empty_route_rejected :
  (List.length (stops Sample.empty_route) < 2)%nat
  /\ init "PTC101" Sample.empty_route 5 Sample.tape0
     = Py.Raise Py.IndexError.
Proof.
  split; [cbn; lia |].
  destruct (init_spec "PTC101" Sample.empty_route 5 Sample.tape0)
    as (occ & spd & _ & _ & Heq).
  exact Heq.
Qed.

Lemma sum_dt_pos (dts : list R) :
  dts <> [] -> Forall (fun dt => 0 < dt) dts -> 0 < sum_dt dts.
Proof.
  intros Hne Hall. induction Hall as [| dt rest Hdt Hrest IH].
  - congruence.
  - cbn. destruct rest as [| dt2 rest'].
    + cbn. lra.
    + assert (0 < sum_dt (dt2 :: rest')) by (apply IH; discriminate).
      unfold sum_dt in *. lra.
Qed.

Lemma last_nonempty {A} (l : list A) (d d' : A) :
  l <> [] -> last l d = last l d'.
Proof.
  induction l as [| x [| y l'] IH]; intros Hne.
  - congruence.
  - reflexivity.
  - cbn [last] in *. apply IH. discriminate.
Qed.

(** Elapsed times that add up to the rest of the current segment move the
    vehicle to the start of the next one, at the last call. *)
Lemma run_to_segment_end (dts : list R) :
  forall (b : BusThread) (seg : Segment) (g : Py.rng),
    Py.index (segments b) (current_segment b) = Py.Ok seg ->
    occupancy_ok b ->
    1 / 1000000 <= dist_km seg ->
    0 < speed_kmph b ->
    dts <> [] ->
    Forall (fun dt => 0 < dt) dts ->
    frac b + speed_kmph b / 3600 * sum_dt dts / dist_km seg = 1 ->
    exists tr g',
      run b dts g = Py.Ok (tr, g')
      /\ List.length tr = List.length dts
      /\ frac (final b tr) = 0
      /\ current_segment (final b tr)
         = ((current_segment b + 1)
              mod Z.of_nat (List.length (segments b)))%Z
      /\ Forall (fun s => current_segment s = current_segment b
                          /\ frac s < 1)
           (removelast tr).
Proof.
  induction dts as [| dt rest IH];
    intros b seg g Hidx Hocc Hlen Hv Hne Hall Hsum; [congruence |].
  inversion Hall as [| ? ? Hdt Hrest]; subst.
  assert (Hmax : Py.fmax (1 / 1000000) (dist_km seg) = dist_km seg)
    by (apply fmax_above; exact Hlen).
  assert (Hsplit :
    speed_kmph b / 3600 * sum_dt (dt :: rest) / dist_km seg
    = speed_kmph b / 3600 * dt / dist_km seg
      + speed_kmph b / 3600 * sum_dt rest / dist_km seg).
  { unfold sum_dt. cbn [fold_right]. unfold Rdiv. ring. }
  assert (Hadv : advance b seg dt
                 = frac b + speed_kmph b / 3600 * dt / dist_km seg).
  { unfold advance. rewrite Hmax. reflexivity. }
  destruct rest as [| dt2 rest'].
  - assert (Hone : 1 <= advance b seg dt).
    { rewrite Hadv. unfold sum_dt in Hsplit, Hsum. cbn [fold_right] in *.
      replace (speed_kmph b / 3600 * 0 / dist_km seg) with 0 in Hsplit
        by (unfold Rdiv; ring).
      lra. }
    assert (Hpos : 0 < dist_km seg) by lra.
    destruct (step_arrive b seg dt g Hidx Hocc
                (or_intror (conj Hpos Hone)))
      as (b' & g' & Hstep & Hfrac & Hcs & _).
    exists [b'], g'. cbn [run].
    rewrite (bind_ok _ _ _ _ _ Hstep). cbn.
    repeat split; try assumption. constructor.
  - assert (Hrestpos : 0 < sum_dt (dt2 :: rest'))
      by (apply sum_dt_pos; [discriminate | exact Hrest]).
    assert (Hmore :
      0 < speed_kmph b / 3600 * sum_dt (dt2 :: rest') / dist_km seg).
    { apply Rdiv_lt_0_compat; [| lra].
      apply Rmult_lt_0_compat; [lra | exact Hrestpos]. }
    assert (Hless : advance b seg dt < 1) by (rewrite Hadv; lra).
    assert (Hpos : 0 < dist_km seg) by lra.
    pose proof (step_advance b seg dt g Hidx Hpos Hless) as Hstep.
    set (b1 := with_frac b (advance b seg dt)) in *.
    destruct (IH b1 seg g) as (tr & g' & Hrun & Hl & Hf & Hc & Hmid);
      try assumption; try discriminate.
    { cbn [b1 with_frac speed_kmph frac]. rewrite Hadv. lra. }
    assert (Htr : tr <> []).
    { intros ->. cbn in Hl. discriminate. }
    exists (b1 :: tr), g'. cbn [run].
    rewrite (bind_ok _ _ _ _ _ Hstep), (bind_ok _ _ _ _ _ Hrun).
    split; [reflexivity |].
    split; [cbn [List.length] in *; lia |].
    unfold final in *.
    assert (Hlast : last (b1 :: tr) b = last tr b1).
    { destruct tr as [| x tr']; [congruence |].
      cbn [last]. apply (last_nonempty (x :: tr')). discriminate. }
    rewrite Hlast.
    split; [exact Hf |]. split; [exact Hc |].
    destruct tr as [| x tr']; [congruence |].
    change (removelast (b1 :: x :: tr')) with (b1 :: removelast (x :: tr')).
    constructor; [| exact Hmid].
    cbn [b1 with_frac current_segment frac]. split; [reflexivity | lra].
Qed.

(** C3, as the code has it. On a segment of length [L] of at least
    1e-6 km, at speed [v > 0], from [frac = 0]: positive elapsed times
    that add up to [L / (v / 3600)] seconds, however they are split, make
    the vehicle complete exactly one segment.  Every call returns; before
    the last call the segment index has not moved and [frac] is below 1;
    after the last call [frac] is 0 and the index is the next one modulo
    the number of segments. *)
Theorem full_segment_traversal
    (b : BusThread) (seg : Segment) (dts : list R) (g : Py.rng) :
  occupancy_ok b ->
  Py.index (segments b) (current_segment b) = Py.Ok seg ->
  frac b = 0 ->
  1 / 1000000 <= dist_km seg ->
  0 < speed_kmph b ->
  Forall (fun dt => 0 < dt) dts ->
  sum_dt dts = dist_km seg / (speed_kmph b / 3600) ->
  exists tr g',
    run b dts g = Py.Ok (tr, g')
    /\ List.length tr = List.length dts
    /\ frac (final b tr) = 0
    /\ current_segment (final b tr)
       = ((current_segment b + 1)
            mod Z.of_nat (List.length (segments b)))%Z
    /\ Forall (fun s => current_segment s = current_segment b
                        /\ frac s < 1)
         (removelast tr).
Proof.
  intros Hocc Hidx Hfrac Hlen Hv Hall Hsum.
  apply run_to_segment_end with (seg := seg); try assumption.
  - intros ->. unfold sum_dt in Hsum. cbn in Hsum.
    assert (0 < dist_km seg / (speed_kmph b / 3600))
      by (apply Rdiv_lt_0_compat; lra).
    lra.
  - rewrite Hfrac, Hsum. field. split; lra.
Qed.

(** C3, counterexample: a segment of 1e-7 km is of positive length, and
    one call with the whole traversal time [L / (v / 3600)] leaves the
    vehicle on the same segment, a tenth of the way along. *)
Lemma short_segment_not_traversed :
  let L := 1 / 10000000 in
  let dt := L / (speed_kmph Sample.short_bus / 3600) in
  Py.index (segments Sample.short_bus)
    (current_segment Sample.short_bus)
  = Py.Ok (mkSegment (0, 0) (0, 0) L)
  /\ 0 < L /\ 0 < dt /\ frac Sample.short_bus = 0
  /\ sum_dt [dt] = L / (speed_kmph Sample.short_bus / 3600)
  /\ exists tr,
       run Sample.short_bus [dt] Sample.tape0 = Py.Ok (tr, Sample.tape0)
       /\ frac (final Sample.short_bus tr) = 1 / 10
       /\ current_segment (final Sample.short_bus tr) = 0%Z
       /\ ((current_segment Sample.short_bus + 1)
             mod Z.of_nat (List.length (segments Sample.short_bus)))%Z
          = 1%Z.
Proof.
  cbv zeta. cbn [Sample.short_bus speed_kmph segments current_segment frac].
  split; [reflexivity |]. split; [lra |]. split; [lra |].
  split; [reflexivity |]. split; [unfold sum_dt; cbn; lra |].
  set (seg := mkSegment (0, 0) (0, 0) (1 / 10000000)).
  set (dt := 1 / 10000000 / (36 / 3600)).
  assert (Hadv : advance Sample.short_bus seg dt = 1 / 10).
  { unfold advance, Py.fmax. cbn [Sample.short_bus speed_kmph frac seg dist_km].
    destruct (Rlt_dec (1 / 1000000) (1 / 10000000)) as [Hlt | _]; [lra |].
    unfold dt. field. }
  pose proof (step_advance Sample.short_bus seg dt Sample.tape0
                ltac:(reflexivity) ltac:(cbn; lra)
                ltac:(rewrite Hadv; lra)) as Hstep.
  rewrite Hadv in Hstep.
  eexists. cbn [run].
  rewrite (bind_ok _ _ _ _ _ Hstep). cbn.
  repeat split.
Qed.

(** The theorems above, applied to the sample vehicles. *)

Lemma occupancy_within_capacity_witness :
  exists b g',
    init "PTC101" Sample.depot_route 5 Sample.tape0 = Py.Ok (b, g')
    /\ (8 <= occupancy b <= 35)%Z
    /\ forall (dts : list R) (g1 : Py.rng),
         exists tr g2,
           run b dts g1 = Py.Ok (tr, g2)
           /\ List.length tr = List.length dts
           /\ Forall (fun s => (0 <= occupancy s <= 50)%Z) tr.
Proof.
  do 2 eexists. split.
  - unfold init, Py.bind, Py.randint, Py.uniform, Py.bind, Py.random,
      Py.lift, Py.ret. cbn. reflexivity.
  - apply (occupancy_within_capacity "PTC101" Sample.depot_route 5
             Sample.tape0 Sample.tape0).
    unfold init, Py.bind, Py.randint, Py.uniform, Py.bind, Py.random,
      Py.lift, Py.ret. cbn. reflexivity.
Defined.

Lemma step_and_position_never_raise_witness :
  occupancy_ok Sample.loop_bus /\ segment_ok Sample.loop_bus
  /\ (exists b' g', step Sample.loop_bus 10 Sample.tape0 = Py.Ok (b', g'))
  /\ (exists p g',
        get_current_latlon Sample.loop_bus Sample.tape0 = Py.Ok (p, g')).
Proof.
  assert (Hocc : occupancy_ok Sample.loop_bus)
    by (unfold occupancy_ok; cbn; lia).
  assert (Hseg : segment_ok Sample.loop_bus)
    by (unfold segment_ok; cbn; lia).
  split; [exact Hocc |]. split; [exact Hseg |].
  destruct (step_and_position_never_raise Sample.loop_bus 10 Sample.tape0
              Hocc Hseg) as (Hs & Hp & _).
  split; [exact Hs | exact Hp].
Defined.

Lemma step_changes_only_frac_witness :
  exists self',
    step Sample.loop_bus 10 Sample.tape0 = Py.Ok (self', Sample.tape0)
    /\ occupancy self' = 20%Z
    /\ current_segment self' = 0%Z.
Proof.
  destruct (step_changes_only_frac Sample.loop_bus
              (mkSegment (0, 0) (0, 1) 1) 10 Sample.tape0)
    as (self' & Hstep & Hocc & Hcs & _).
  - lra.
  - reflexivity.
  - cbn. lra.
  - cbn [Sample.loop_bus frac speed_kmph dist_km].
    rewrite fmax_above by lra. lra.
  - exists self'. split; [exact Hstep |]. split; [exact Hocc | exact Hcs].
Defined.

Lemma full_segment_traversal_witness :
  exists tr g',
    run Sample.loop_bus [40; 60] Sample.tape0 = Py.Ok (tr, g')
    /\ frac (final Sample.loop_bus tr) = 0
    /\ current_segment (final Sample.loop_bus tr) = 1%Z.
Proof.
  destruct (full_segment_traversal Sample.loop_bus
              (mkSegment (0, 0) (0, 1) 1) [40; 60] Sample.tape0)
    as (tr & g' & Hrun & _ & Hfrac & Hcs & _).
  - unfold occupancy_ok. cbn. lia.
  - reflexivity.
  - reflexivity.
  - cbn. lra.
  - cbn. lra.
  - repeat constructor; lra.
  - unfold sum_dt. cbn. field.
  - exists tr, g'. split; [exact Hrun |]. split; [exact Hfrac | exact Hcs].
Defined.

End SimProps.

(** ** GeoMath *)

Module GeoProps.


Lemma haversine_km_c (lat1 lon1 lat2 lon2 : R) :
  haversine_km lat1 lon1 lat2 lon2 = 6371 * hav_c lat1 lon1 lat2 lon2.
Proof. reflexivity. Qed.


Lemma atan_nonneg (x : R) : 0 <= x -> 0 <= atan x.
Proof.
  intros [Hx | <-].
  - rewrite <- atan_0. left. apply atan_increasing. exact Hx.
  - rewrite atan_0. lra.
Qed.

Lemma atan2_nonneg (y x : R) : 0 <= y -> 0 <= x -> 0 <= atan2 y x.
Proof.
  intros Hy Hx. unfold atan2. pose proof PI_RGT_0.
  destruct (Rlt_dec 0 x) as [Hpos | _].
  - apply atan_nonneg. apply Rmult_le_pos; [exact Hy |].
    left. apply Rinv_0_lt_compat. exact Hpos.
  - destruct (Rlt_dec x 0); [lra |].
    destruct (Rlt_dec 0 y); [lra |].
    destruct (Rlt_dec y 0); lra.
Qed.



Lemma hav_c_nonneg (lat1 lon1 lat2 lon2 : R) :
  0 <= hav_c lat1 lon1 lat2 lon2.
Proof.
  unfold hav_c.
  pose proof (atan2_nonneg _ _
                (sqrt_pos (hav_a lat1 lon1 lat2 lon2))
                (sqrt_pos (1 - hav_a lat1 lon1 lat2 lon2))).
  lra.
Qed.

End GeoProps.

(** ** The aggregation endpoints *)

Module MainProps.
Import Main.
Local Open Scope string_scope.
Local Open Scope list_scope.

(** *** Enriched view *)

(** C1, the code at the input of the spec's example: a stored occupancy of
    45 (90% of the capacity of 50) is labelled "available", whatever the
    hash and the clock. *)
Theorem label_of_occupancy_45 (hash : string -> Z) (now : R) :
  let b := mkBus 1 "PTC101" (Some 31.6340) (Some 74.8737) (Some 45%Z)
             (Some "Amritsar") (Some 0%Z) in
  e_occupancy (_merge_bus hash now b) = 45%Z
  /\ (80 * CAPACITY <= 100 * e_occupancy (_merge_bus hash now b))%Z
  /\ e_occupancy_label (_merge_bus hash now b) = "available".
Proof.
  cbv zeta. unfold _merge_bus, CAPACITY. cbn. repeat split. lia.
Qed.

(** No stored occupancy within the capacity is ever labelled "crowded" or
    "moderate": the thresholds of [_merge_bus] are 80 and 60 passengers. *)
Lemma label_within_capacity (hash : string -> Z) (now : R) (b : Bus)
    (occ : Z) :
  occupancy b = Some occ -> (occ <= CAPACITY)%Z ->
  e_occupancy_label (_merge_bus hash now b) = "available".
Proof.
  intros Hocc Hcap. unfold _merge_bus, CAPACITY in *.
  cbn [e_occupancy_label bus_to_dict d_occupancy]. rewrite Hocc.
  destruct (Z.leb_spec 80 occ); [lia |].
  destruct (Z.leb_spec 60 occ); [lia | reflexivity].
Qed.

(** C9. When the stored occupancy is missing, the occupancy of the
    enriched view lies in [[10, 79]] (indeed in [[10, 59]]), and it is the
    same for any two vehicles with the same id hash seen in the same
    10-minute window. *)
Theorem synthesized_occupancy (hash : string -> Z) (now : R) (b : Bus) :
  occupancy b = None ->
  (10 <= e_occupancy (_merge_bus hash now b) <= 79)%Z
  /\ (10 <= e_occupancy (_merge_bus hash now b) <= 59)%Z
  /\ forall (now' : R) (b' : Bus),
       occupancy b' = None ->
       hash (bus_id b') = hash (bus_id b) ->
       Py.floordiv now' 600 = Py.floordiv now 600 ->
       e_occupancy (_merge_bus hash now' b')
       = e_occupancy (_merge_bus hash now b).
Proof.
  intros Hnone. unfold _merge_bus.
  cbn [e_occupancy bus_to_dict d_occupancy]. rewrite Hnone.
  pose proof (Z.mod_pos_bound
                (Z.abs (hash (bus_id b)) + Py.floordiv now 600 * 5) 50
                ltac:(lia)) as Hmod.
  split; [lia |]. split; [lia |].
  intros now' b' Hnone' Hhash Hwin.
  rewrite Hnone', Hhash, Hwin. reflexivity.
Qed.

Lemma synthesized_occupancy_witness :
  let b := mkBus 7 "PTC107" None None None None None in
  (10 <= e_occupancy (_merge_bus (fun _ => 12345%Z) 1700000000 b) <= 79)%Z.
Proof.
  cbv zeta.
  apply (synthesized_occupancy (fun _ => 12345%Z) 1700000000
           (mkBus 7 "PTC107" None None None None None)).
  reflexivity.
Defined.

(** *** Bounding box *)

Lemma filter_if_In {A} (bound : option R) (pred : A -> R -> bool)
    (q : list A) (x : A) :
  In x (filter_if bound pred q)
  <-> In x q /\ (forall v, bound = Some v -> pred x v = true).
Proof.
  destruct bound as [v |]; cbn [filter_if].
  - rewrite filter_In. split.
    + intros [Hin Hp]. split; [exact Hin |]. intros v' [= <-]. exact Hp.
    + intros [Hin Hp]. split; [exact Hin | apply Hp; reflexivity].
  - split; [intros Hin; split; [exact Hin | discriminate] | tauto].
Qed.

Lemma dict_set_fresh (d : list (string * BusDict)) (k : string)
    (v : BusDict) :
  ~ In k (map fst d) -> dict_set d k v = d ++ [(k, v)].
Proof.
  induction d as [| [k' v'] rest IH]; intros Hfresh; [reflexivity |].
  cbn [dict_set]. cbn in Hfresh.
  destruct (String.eqb_spec k' k) as [-> | _]; [tauto |].
  rewrite IH by tauto. reflexivity.
Qed.

Lemma dict_of_unique (out : list BusDict) :
  NoDup (map d_bus_id out) ->
  forall acc,
    (forall d, In d out -> ~ In (d_bus_id d) (map fst acc)) ->
    map snd (fold_left (fun d b => dict_set d (d_bus_id b) b) out acc)
    = map snd acc ++ out.
Proof.
  induction out as [| b rest IH]; intros Hnd acc Hfresh.
  - cbn. rewrite app_nil_r. reflexivity.
  - cbn [fold_left]. inversion Hnd as [| ? ? Hnotin Hnd']; subst.
    rewrite dict_set_fresh by (apply Hfresh; left; reflexivity).
    rewrite IH; [| exact Hnd' |].
    + rewrite map_app, <- app_assoc. reflexivity.
    + intros d Hd. rewrite map_app, in_app_iff. cbn.
      intros [Hacc | [Heq | []]].
      * apply (Hfresh d); [right; exact Hd | exact Hacc].
      * apply Hnotin. rewrite Heq. apply in_map. exact Hd.
Qed.

Lemma filter_keys_unique {Row Key : Type} (key : Row -> Key)
    (keep : Row -> bool) (rows : list Row)
    (Hnd : NoDup (map key rows)) :
  NoDup (map key (filter keep rows)).
Proof.
  induction rows as [| x rest IH]; [constructor |].
  inversion Hnd as [| ? ? Hnotin Hnd']; subst. cbn [filter].
  destruct (keep x); [| apply IH; exact Hnd'].
  cbn [map]. constructor; [| apply IH; exact Hnd'].
  intros Hin. apply Hnotin. apply in_map_iff in Hin.
  destruct Hin as (y & <- & Hy). apply in_map.
  apply filter_In in Hy. tauto.
Qed.

Lemma filter_if_unique {A B} (f : A -> B) (bound : option R)
    (pred : A -> R -> bool) (l : list A) :
  NoDup (map f l) -> NoDup (map f (filter_if bound pred l)).
Proof.
  destruct bound; cbn [filter_if]; [apply filter_keys_unique | tauto].
Qed.

(** The vehicles returned by [get_all_buses] are the dictionaries of the
    rows inside the box, in both output shapes; in the map shape the
    unique constraint on [bus_id] is what keeps every row. *)
Lemma get_all_buses_rows (as_map : bool)
    (min_lat max_lat min_lon max_lon : option R) (db : list Bus)
    (d : BusDict) :
  (as_map = true -> NoDup (map bus_id db)) ->
  In d (buses_of (get_all_buses as_map min_lat max_lat min_lon max_lon db))
  <-> exists b,
        In b db /\ in_box min_lat max_lat min_lon max_lon b
        /\ d = bus_to_dict b.
Proof.
  intros Huniq. unfold get_all_buses.
  set (q := filter_if max_lon _ _).
  assert (Hq : forall b, In b q
               <-> In b db /\ in_box min_lat max_lat min_lon max_lon b).
  { intros b. unfold q, in_box. rewrite !filter_if_In. tauto. }
  assert (Hrows : buses_of
                    (if as_map
                     then AsMap (fold_left
                                   (fun d b => dict_set d (d_bus_id b) b)
                                   (map bus_to_dict q) [])
                     else AsList (map bus_to_dict q))
                  = map bus_to_dict q).
  { destruct as_map; [| reflexivity].
    cbn [buses_of]. rewrite dict_of_unique.
    - reflexivity.
    - rewrite map_map. cbn [bus_to_dict d_bus_id].
      unfold q. repeat apply filter_if_unique. apply Huniq. reflexivity.
    - intros ? _ []. }
  rewrite Hrows, in_map_iff. split.
  - intros (b & <- & Hb). exists b. apply Hq in Hb. tauto.
  - intros (b & Hin & Hbox & ->). exists b. split; [reflexivity |].
    apply Hq. tauto.
Qed.

Lemma Rleb_refl (x : R) : Py.Rleb x x = true.
Proof. unfold Py.Rleb. destruct (Rle_dec x x); [reflexivity | lra]. Qed.

Lemma Rleb_true (x y : R) : Py.Rleb x y = true <-> x <= y.
Proof.
  unfold Py.Rleb. destruct (Rle_dec x y); split; try tauto; discriminate.
Qed.




(** *** Nearest stops and buses *)

Lemma firstn_In_of {A} (n : nat) (l : list A) (x : A) :
  In x (firstn n l) -> In x l.
Proof.
  revert n. induction l as [| y rest IH]; intros [| n]; cbn;
    try tauto.
  intros [-> | H]; [left; reflexivity | right; eapply IH; exact H].
Qed.



Section Sorting.
Context {A : Type} (key : A -> Z).

Lemma insert_by_In (x y : A) (l : list A) :
  In y (insert_by key x l) <-> y = x \/ In y l.
Proof.
  induction l as [| z rest IH]; cbn [insert_by].
  - cbn. intuition congruence.
  - destruct (key x <=? key z)%Z; cbn [In]; [intuition congruence |].
    rewrite IH. intuition congruence.
Qed.


Lemma insert_by_length (x : A) (l : list A) :
  List.length (insert_by key x l) = S (List.length l).
Proof.
  induction l as [| z rest IH]; [reflexivity |]. cbn [insert_by].
  destruct (key x <=? key z)%Z; cbn [List.length]; [reflexivity |].
  rewrite IH. reflexivity.
Qed.

Lemma sort_by_length (l : list A) :
  List.length (sort_by key l) = List.length l.
Proof.
  induction l as [| x rest IH]; [reflexivity |].
  unfold sort_by in *. cbn [fold_right].
  rewrite insert_by_length, IH. reflexivity.
Qed.

Lemma insert_by_ascending (x : A) (l : list A) :
  ascending_by key l -> ascending_by key (insert_by key x l).
Proof.
  unfold ascending_by.
  induction l as [| z rest IH]; intros Hs; cbn [insert_by].
  - repeat constructor.
  - inversion Hs as [| ? ? Hrest Hall]; subst.
    destruct (Z.leb_spec (key x) (key z)) as [Hle | Hgt].
    + constructor; [exact Hs |].
      constructor; [exact Hle |].
      eapply Forall_impl; [| exact Hall]. cbn. intros; lia.
    + constructor; [apply IH; exact Hrest |].
      apply Forall_forall. intros y Hy. apply insert_by_In in Hy.
      destruct Hy as [-> | Hy]; [lia |].
      rewrite Forall_forall in Hall. apply Hall. exact Hy.
Qed.

Lemma sort_by_ascending (l : list A) : ascending_by key (sort_by key l).
Proof.
  induction l as [| x rest IH]; [constructor |].
  unfold sort_by in *. cbn [fold_right].
  apply insert_by_ascending. exact IH.
Qed.

(** Stability: the entries of any one key value come out in the order in
    which they went in. *)
Lemma insert_by_same_key (v : Z) (x : A) (l : list A) :
  filter (fun y => (key y =? v)%Z) (insert_by key x l)
  = filter (fun y => (key y =? v)%Z) (x :: l).
Proof.
  induction l as [| z rest IH]; [reflexivity |]. cbn [insert_by].
  destruct (Z.leb_spec (key x) (key z)) as [Hle | Hgt]; [reflexivity |].
  cbn [filter] in *. rewrite IH.
  destruct (Z.eqb_spec (key z) v) as [Hz | Hz];
    destruct (Z.eqb_spec (key x) v) as [Hx | Hx];
    try reflexivity.
  lia.
Qed.

Lemma sort_by_stable (v : Z) (l : list A) :
  filter (fun y => (key y =? v)%Z) (sort_by key l)
  = filter (fun y => (key y =? v)%Z) l.
Proof.
  induction l as [| x rest IH]; [reflexivity |].
  unfold sort_by in *. cbn [fold_right].
  rewrite insert_by_same_key. cbn [filter]. rewrite IH. reflexivity.
Qed.



End Sorting.

(** A loop that returns has run its body on every element, in order. *)
Lemma for_each_returned {Row Entry : Type} (body : Row -> Py.result Entry)
    (rows : list Row) (entries : list Entry) :
  for_each body rows = Py.Ok entries ->
  Forall2 (fun row entry => body row = Py.Ok entry) rows entries.
Proof.
  revert entries. induction rows as [| row rest IH]; intros entries.
  - cbn. intros [= <-]. constructor.
  - cbn [for_each]. destruct (body row) as [entry | e] eqn:Hrow;
      [| discriminate].
    destruct (for_each body rest) as [more | e] eqn:Hrest; [| discriminate].
    intros [= <-]. constructor; [exact Hrow | apply IH; reflexivity].
Qed.

(** A loop whose body returns on every element returns. *)
Lemma for_each_returns {Row Entry : Type} (body : Row -> Py.result Entry)
    (rows : list Row) :
  (forall row, In row rows -> exists entry, body row = Py.Ok entry) ->
  exists entries, for_each body rows = Py.Ok entries.
Proof.
  induction rows as [| row rest IH]; intros Hbody.
  - exists []. reflexivity.
  - destruct (Hbody row (or_introl eq_refl)) as (entry & Hrow).
    destruct IH as (more & Hrest).
    { intros r Hr. apply Hbody. right. exact Hr. }
    exists (entry :: more). cbn [for_each]. rewrite Hrow, Hrest.
    reflexivity.
Qed.

Lemma Forall2_In_r {Row Entry : Type} (rel : Row -> Entry -> Prop)
    (rows : list Row) (entries : list Entry) (entry : Entry) :
  Forall2 rel rows entries -> In entry entries ->
  exists row, In row rows /\ rel row entry.
Proof.
  induction 1 as [| row e rows' entries' Hrel _ IH]; intros Hin;
    [destruct Hin |].
  destruct Hin as [<- | Hin].
  - exists row. split; [left; reflexivity | exact Hrel].
  - destruct (IH Hin) as (r & Hr & Hrel'). exists r.
    split; [right; exact Hr | exact Hrel'].
Qed.

Section NearestProps.
Variable haversine_m_fl : R -> R -> R -> R -> Py.result R.

(** Every entry that the loop over the located rows builds carries the
    position of a row and the truncated distance that the call
    returned. *)
Lemma for_each_near_bus (lat lon : R) (rows : list Bus)
    (l : list NearBus) :
  for_each (near_bus haversine_m_fl lat lon) rows = Py.Ok l ->
  List.length l = List.length rows
  /\ forall nb, In nb l ->
       exists b d,
         In b rows
         /\ latitude b = Some (nb_lat nb)
         /\ longitude b = Some (nb_lon nb)
         /\ nb_bus_id nb = bus_id b
         /\ haversine_m_fl lat lon (nb_lat nb) (nb_lon nb) = Py.Ok d
         /\ nb_dist_m nb = Py.int_of_float d.
Proof.
  intros Hl. apply for_each_returned in Hl. split.
  - symmetry. eapply Forall2_length. exact Hl.
  - intros nb Hnb.
    destruct (Forall2_In_r _ _ _ _ Hl Hnb) as (b & Hb & Hrow).
    unfold near_bus in Hrow.
    destruct (latitude b) as [blat |] eqn:Hlat; [| discriminate].
    destruct (longitude b) as [blon |] eqn:Hlon; [| discriminate].
    destruct (haversine_m_fl lat lon blat blon) as [d | e] eqn:Hd;
      [| discriminate].
    injection Hrow as <-. exists b, d. cbn.
    repeat split; try assumption.
Qed.

Lemma for_each_near_stop (lat lon : R) (rows : list Stop)
    (l : list NearStop) :
  for_each (near_stop haversine_m_fl lat lon) rows = Py.Ok l ->
  List.length l = List.length rows
  /\ forall ns, In ns l ->
       exists d,
         In (ns_stop ns) rows
         /\ haversine_m_fl lat lon (stop_lat (ns_stop ns))
              (stop_lon (ns_stop ns)) = Py.Ok d
         /\ ns_dist_m ns = Py.int_of_float d.
Proof.
  intros Hl. apply for_each_returned in Hl. split.
  - symmetry. eapply Forall2_length. exact Hl.
  - intros ns Hns.
    destruct (Forall2_In_r _ _ _ _ Hl Hns) as (s & Hs & Hrow).
    unfold near_stop in Hrow.
    destruct (haversine_m_fl lat lon (stop_lat s) (stop_lon s))
      as [d | e] eqn:Hd; [| discriminate].
    injection Hrow as <-. exists d. cbn.
    repeat split; assumption.
Qed.

(** What a call of [nearest] that returns has computed. *)
Lemma nearest_returned (lat lon : R) (max_results : Z) (db : list Bus)
    (out : Nearest) :
  nearest haversine_m_fl lat lon max_results db = Py.Ok out ->
  exists all_stops all_buses,
    for_each (near_stop haversine_m_fl lat lon) MASTER_STOPS
    = Py.Ok all_stops
    /\ for_each (near_bus haversine_m_fl lat lon)
         (filter (fun b => is_not_none (latitude b)
                           && is_not_none (longitude b)) db)
       = Py.Ok all_buses
    /\ nearest_stops out
       = Py.slice_to (sort_by ns_dist_m all_stops) max_results
    /\ nearest_buses out
       = Py.slice_to (sort_by nb_dist_m all_buses) max_results.
Proof.
  unfold nearest.
  destruct (for_each (near_stop haversine_m_fl lat lon) MASTER_STOPS)
    as [all_stops | e]; [| discriminate].
  destruct (for_each (near_bus haversine_m_fl lat lon) _)
    as [all_buses | e]; [| discriminate].
  intros [= <-]. exists all_stops, all_buses.
  repeat split; reflexivity.
Qed.

End NearestProps.







End MainProps.

(** ** GeoMath: the distance along a meridian *)

Module GeoExtra.
Import GeoProps.

Lemma atan2_quarter (y x : R) : 0 <= y -> 0 <= x -> atan2 y x <= PI / 2.
Proof.
  intros Hy Hx. unfold atan2. pose proof PI_RGT_0.
  destruct (Rlt_dec 0 x) as [Hpos | _].
  - left. apply atan_bound.
  - destruct (Rlt_dec x 0); [lra |].
    destruct (Rlt_dec 0 y); [lra |].
    destruct (Rlt_dec y 0); lra.
Qed.

Lemma hav_c_half_turn (lat1 lon1 lat2 lon2 : R) :
  0 <= hav_c lat1 lon1 lat2 lon2 <= PI.
Proof.
  split; [apply hav_c_nonneg |]. unfold hav_c.
  pose proof (atan2_quarter _ _
                (sqrt_pos (hav_a lat1 lon1 lat2 lon2))
                (sqrt_pos (1 - hav_a lat1 lon1 lat2 lon2))).
  lra.
Qed.

Lemma haversine_units_bound_km (lat1 lon1 lat2 lon2 : R) :
  0 <= haversine_km lat1 lon1 lat2 lon2 <= 6371 * PI.
Proof.
  rewrite haversine_km_c.
  pose proof (hav_c_half_turn lat1 lon1 lat2 lon2). split; nra.
Qed.






End GeoExtra.

(** ** The simulator, beyond the segment traversal *)

Module SimExtra.
Import MovingSim.
Import SimProps.

(** Whatever a call returns, it leaves the static attributes alone. *)
Lemma step_static (b b' : BusThread) (dt : R) (g g' : Py.rng) :
  step b dt g = Py.Ok (b', g') ->
  bus_id b' = bus_id b /\ route_name b' = route_name b
  /\ waypoints b' = waypoints b /\ post_interval b' = post_interval b
  /\ speed_kmph b' = speed_kmph b /\ segments b' = segments b.
Proof.
  intros H.
  unfold step, Py.bind, Py.lift, Py.ret, Py.random, Py.randint, Py.imod,
    Py.fdiv in H.
  repeat match type of H with
         | context [match ?x with _ => _ end] => destruct x
         end;
    try discriminate; injection H as <- _; cbn; repeat split.
Qed.

(** The two outcomes of a call on a sound vehicle: progress on the same
    segment, or arrival at the start of the next one. *)
Lemma step_outcome (b : BusThread) (dt : R) (g : Py.rng) :
  occupancy_ok b -> segment_ok b ->
  exists seg b' g',
    Py.index (segments b) (current_segment b) = Py.Ok seg
    /\ step b dt g = Py.Ok (b', g')
    /\ occupancy_ok b' /\ segment_ok b'
    /\ (occupancy b - 3 <= occupancy b' <= occupancy b + 2)%Z
    /\ ((0 < dist_km seg /\ advance b seg dt < 1
         /\ b' = with_frac b (advance b seg dt) /\ g' = g)
        \/ ((dist_km seg <= 0 \/ 1 <= advance b seg dt)
            /\ frac b' = 0
            /\ current_segment b'
               = ((current_segment b + 1)
                    mod Z.of_nat (List.length (segments b)))%Z)).
Proof.
  intros Hocc Hseg.
  destruct (index_in_range (segments b) (current_segment b) Hseg)
    as (seg & Hidx & _).
  assert (Hmod :
    (0 <= (current_segment b + 1) mod Z.of_nat (List.length (segments b))
     < Z.of_nat (List.length (segments b)))%Z).
  { apply Z.mod_pos_bound. unfold segment_ok in Hseg. lia. }
  assert (Harr : dist_km seg <= 0
                 \/ (0 < dist_km seg /\ 1 <= advance b seg dt)
                 \/ (0 < dist_km seg /\ advance b seg dt < 1)).
  { destruct (Rle_dec (dist_km seg) 0); [left; assumption |].
    destruct (Rle_dec 1 (advance b seg dt)); right; [left | right]; lra. }
  exists seg.
  destruct Harr as [Hz | [[Hpos Hge] | [Hpos Hlt]]].
  - destruct (step_arrive b seg dt g Hidx Hocc (or_introl Hz))
      as (b' & g' & Hstep & Hf & Hcs & Hocc' & Hd & Hsegs & _).
    assert (Hseg' : segment_ok b')
      by (unfold segment_ok; rewrite Hcs, Hsegs; exact Hmod).
    exists b', g'.
    split; [exact Hidx |]. split; [exact Hstep |]. split; [exact Hocc' |].
    split; [exact Hseg' |]. split; [exact Hd |].
    right. split; [left; exact Hz |]. split; [exact Hf | exact Hcs].
  - destruct (step_arrive b seg dt g Hidx Hocc (or_intror (conj Hpos Hge)))
      as (b' & g' & Hstep & Hf & Hcs & Hocc' & Hd & Hsegs & _).
    assert (Hseg' : segment_ok b')
      by (unfold segment_ok; rewrite Hcs, Hsegs; exact Hmod).
    exists b', g'.
    split; [exact Hidx |]. split; [exact Hstep |]. split; [exact Hocc' |].
    split; [exact Hseg' |]. split; [exact Hd |].
    right. split; [right; exact Hge |]. split; [exact Hf | exact Hcs].
  - exists (with_frac b (advance b seg dt)), g.
    pose proof (step_advance b seg dt g Hidx Hpos Hlt) as Hstep.
    split; [exact Hidx |]. split; [exact Hstep |]. split; [exact Hocc |].
    split; [exact Hseg |].
    split; [cbn [with_frac occupancy]; lia |].
    left. repeat split; assumption.
Qed.

(** X4. Whenever the constructor returns, the route has at least one
    waypoint and the vehicle starts on segment 0 at progress 0 with an
    occupancy in [[8, 35]] and a speed in [[22, 28]], keeps the
    identifier, the route and the posting interval it was given, has one
    segment per pair of consecutive waypoints (one nominal segment for a
    single waypoint), and construction has consumed exactly two random
    draws. *)
Theorem constructed_vehicle_state
    (id : string) (rd : RouteDef) (pi : R) (g g' : Py.rng)
    (b : BusThread) :
  init id rd pi g = Py.Ok (b, g') ->
  stops rd <> []
  /\ g' = Py.rng_tail (Py.rng_tail g)
  /\ bus_id b = id /\ route_name b = name rd /\ waypoints b = stops rd
  /\ post_interval b = pi
  /\ current_segment b = 0%Z /\ frac b = 0
  /\ (8 <= occupancy b <= 35)%Z /\ 22 <= speed_kmph b <= 28
  /\ List.length (segments b)
     = Nat.max 1 (List.length (stops rd) - 1).
Proof.
  intros Hinit.
  destruct (init_spec id rd pi g) as (occ & spd & Hocc & Hspd & Heq).
  rewrite Heq in Hinit.
  destruct (stops rd) as [| w0 rest] eqn:Hst; [discriminate |].
  injection Hinit as <- <-.
  cbn [bus_id route_name waypoints post_interval current_segment frac
       occupancy speed_kmph segments].
  split; [discriminate |].
  repeat split; try lia; try lra.
  clear. revert w0. induction rest as [| w1 rest IH]; intros w0.
  - reflexivity.
  - specialize (IH w1). cbn [build_segments] in *.
    destruct rest as [| w2 rest']; [reflexivity |].
    cbn [List.length] in *. lia.
Qed.

Lemma constructed_vehicle_state_witness :
  exists b g',
    init "PTC101"
      (mkRouteDef "Amritsar" [(31.6340, 74.8737); (31.6200, 74.8765)])
      5 Sample.tape0
    = Py.Ok (b, g')
    /\ g' = Py.rng_tail (Py.rng_tail Sample.tape0)
    /\ List.length (segments b) = 1%nat.
Proof.
  destruct (init_spec "PTC101"
              (mkRouteDef "Amritsar"
                 [(31.6340, 74.8737); (31.6200, 74.8765)])
              5 Sample.tape0)
    as (occ & spd & _ & _ & Heq).
  do 2 eexists. split; [exact Heq |].
  destruct (constructed_vehicle_state _ _ _ _ _ _ Heq)
    as (_ & Hg & _ & _ & _ & _ & _ & _ & _ & _ & Hlen).
  split; [exact Hg | exact Hlen].
Defined.

(** X5. The segments of a route join its consecutive waypoints, in order: the
    segment of index [i] runs from waypoint [i] to waypoint [i + 1] and its
    length is their haversine distance. *)
Theorem segments_join_consecutive_waypoints
    (wps : list GeoPoint) (i : nat) (s : Segment) :
  nth_error (build_segments wps) i = Some s
  <-> exists a b,
        nth_error wps i = Some a /\ nth_error wps (S i) = Some b
        /\ s = mkSegment a b (haversine_km (fst a) (snd a) (fst b) (snd b)).
Proof.
  revert i. induction wps as [| w0 rest IH]; intros i.
  - cbn. split; [destruct i; discriminate |].
    intros (a & b & Ha & _). destruct i; discriminate.
  - destruct rest as [| w1 rest'].
    + cbn [build_segments]. split; [destruct i; discriminate |].
      intros (a & b & _ & Hb & _). destruct i; cbn in Hb; discriminate.
    + change (build_segments (w0 :: w1 :: rest'))
        with (mkSegment w0 w1
                (haversine_km (fst w0) (snd w0) (fst w1) (snd w1))
              :: build_segments (w1 :: rest')).
      destruct i as [| i].
      * cbn [nth_error]. split.
        -- intros [= <-]. exists w0, w1. repeat split.
        -- intros (a & b & [= <-] & [= <-] & ->). reflexivity.
      * cbn [nth_error]. rewrite IH. reflexivity.
Qed.

(** X6. Every segment of a constructed vehicle has a length between 0 and half
    the circumference of the Earth, so the zero-length branch of [step]
    is taken only on a segment of length exactly 0. *)
Theorem constructed_segment_lengths
    (id : string) (rd : RouteDef) (pi : R) (g g' : Py.rng) (b : BusThread) :
  init id rd pi g = Py.Ok (b, g') ->
  Forall (fun s => 0 <= dist_km s <= 6371 * PI
                   /\ (dist_km s <= 0 -> dist_km s = 0))
    (segments b).
Proof.
  intros Hinit.
  destruct (init_spec id rd pi g) as (occ & spd & _ & _ & Heq).
  rewrite Heq in Hinit.
  destruct (stops rd) as [| w0 rest]; [discriminate |].
  injection Hinit as <- _. cbn [segments].
  assert (Hbuilt : forall wps,
            Forall (fun s => 0 <= dist_km s <= 6371 * PI)
              (build_segments wps)).
  { induction wps as [| a [| c wps'] IH]; try constructor.
    - cbn [dist_km].
      apply (GeoExtra.haversine_units_bound_km (fst a) (snd a) (fst c) (snd c)).
    - exact IH. }
  assert (Hall : Forall (fun s => 0 <= dist_km s <= 6371 * PI)
                   match build_segments (w0 :: rest) with
                   | [] => [mkSegment w0 w0 (1 / 10)]
                   | s :: segs => s :: segs
                   end).
  { pose proof (Hbuilt (w0 :: rest)) as Hb.
    destruct (build_segments (w0 :: rest)); [| exact Hb].
    constructor; [| constructor]. cbn. pose proof PI2_1. lra. }
  eapply Forall_impl; [| exact Hall].
  cbn. intros s Hs. split; [exact Hs | lra].
Qed.

Lemma constructed_segment_lengths_witness :
  exists b g',
    init "PTC101" Sample.depot_route 5 Sample.tape0 = Py.Ok (b, g')
    /\ Forall (fun s => 0 <= dist_km s <= 6371 * PI
                        /\ (dist_km s <= 0 -> dist_km s = 0))
         (segments b).
Proof.
  destruct (init_spec "PTC101" Sample.depot_route 5 Sample.tape0)
    as (occ & spd & _ & _ & Heq).
  do 2 eexists. split; [exact Heq |].
  eapply constructed_segment_lengths. exact Heq.
Defined.

Lemma advance_nonneg (b : BusThread) (seg : Segment) (dt : R) :
  0 <= speed_kmph b -> 0 <= dt -> frac b <= advance b seg dt.
Proof.
  intros Hv Hdt. unfold advance.
  pose proof (fmax_floor (1 / 1000000) (dist_km seg)) as [Hfloor _].
  assert (0 <= speed_kmph b / 3600 * dt
               / Py.fmax (1 / 1000000) (dist_km seg)).
  { apply Rmult_le_pos; [nra |]. left. apply Rinv_0_lt_compat. lra. }
  lra.
Qed.

(** X7. From a sound vehicle with a non-negative speed and progress, after
    every call of any sequence of calls with non-negative elapsed times
    the fractional progress is in [[0, 1)]. *)
Theorem frac_stays_in_unit_interval
    (b : BusThread) (dts : list R) (g : Py.rng) :
  occupancy_ok b -> segment_ok b -> 0 <= speed_kmph b -> 0 <= frac b ->
  Forall (fun dt => 0 <= dt) dts ->
  exists tr g',
    run b dts g = Py.Ok (tr, g')
    /\ Forall (fun s => 0 <= frac s < 1) tr.
Proof.
  revert b g.
  induction dts as [| dt rest IH]; intros b g Hocc Hseg Hv Hf Hall.
  - exists [], g. split; [reflexivity | constructor].
  - inversion Hall as [| ? ? Hdt Hrest]; subst.
    destruct (step_outcome b dt g Hocc Hseg)
      as (seg & b1 & g1 & _ & Hstep & Hocc1 & Hseg1 & _ & Hcase).
    destruct (step_static b b1 dt g g1 Hstep) as (_ & _ & _ & _ & Hspd & _).
    assert (Hf1 : 0 <= frac b1 < 1).
    { destruct Hcase as [(_ & Hlt & -> & _) | (_ & -> & _)]; [| lra].
      cbn [with_frac frac].
      pose proof (advance_nonneg b seg dt Hv Hdt). lra. }
    destruct (IH b1 g1) as (tr & g2 & Hrun & Htr); try assumption.
    { rewrite Hspd. exact Hv. }
    { lra. }
    exists (b1 :: tr), g2. cbn [run].
    rewrite (bind_ok _ _ _ _ _ Hstep), (bind_ok _ _ _ _ _ Hrun).
    split; [reflexivity | constructor; assumption].
Qed.

Lemma frac_stays_in_unit_interval_witness :
  exists tr g',
    run Sample.loop_bus [40; 60; 1000] Sample.tape0 = Py.Ok (tr, g')
    /\ Forall (fun s => 0 <= frac s < 1) tr.
Proof.
  apply (frac_stays_in_unit_interval Sample.loop_bus [40; 60; 1000]
           Sample.tape0).
  - unfold occupancy_ok. cbn. lia.
  - unfold segment_ok. cbn. lia.
  - cbn. lra.
  - cbn. lra.
  - repeat constructor; lra.
Defined.

(** X8. One call never moves a sound vehicle by more than one segment,
    however long the elapsed time: the index stays, or becomes the next
    one modulo the number of segments with the progress reset to 0 (the
    overshoot is dropped).  The identity, route, speed and segments of the
    vehicle never change. *)
Theorem step_moves_at_most_one_segment
    (b : BusThread) (dt : R) (g : Py.rng) :
  occupancy_ok b -> segment_ok b ->
  exists b' g',
    step b dt g = Py.Ok (b', g')
    /\ (current_segment b' = current_segment b
        \/ (current_segment b'
            = ((current_segment b + 1)
                 mod Z.of_nat (List.length (segments b)))%Z
            /\ frac b' = 0))
    /\ bus_id b' = bus_id b /\ route_name b' = route_name b
    /\ waypoints b' = waypoints b /\ post_interval b' = post_interval b
    /\ speed_kmph b' = speed_kmph b /\ segments b' = segments b.
Proof.
  intros Hocc Hseg.
  destruct (step_outcome b dt g Hocc Hseg)
    as (seg & b' & g' & _ & Hstep & _ & _ & _ & Hcase).
  exists b', g'. split; [exact Hstep |].
  split; [| exact (step_static b b' dt g g' Hstep)].
  destruct Hcase as [(_ & _ & -> & _) | (_ & Hf & Hcs)].
  - left. reflexivity.
  - right. split; assumption.
Qed.

Lemma step_moves_at_most_one_segment_witness :
  exists b' g',
    step Sample.loop_bus 1000000 Sample.tape0 = Py.Ok (b', g')
    /\ (current_segment b' = 0%Z
        \/ (current_segment b' = 1%Z /\ frac b' = 0)).
Proof.
  destruct (step_moves_at_most_one_segment Sample.loop_bus 1000000
              Sample.tape0) as (b' & g' & Hstep & Hcase & _).
  - unfold occupancy_ok. cbn. lia.
  - unfold segment_ok. cbn. lia.
  - exists b', g'. split; [exact Hstep | exact Hcase].
Defined.

(** X9. A call changes the occupancy by at most 3 passengers down and 2 up, so
    after [n] calls the occupancy is within [-3 n] and [+2 n] of where it
    started. *)
Theorem occupancy_drift_is_bounded
    (b : BusThread) (dts : list R) (g : Py.rng) :
  occupancy_ok b -> segment_ok b ->
  exists tr g',
    run b dts g = Py.Ok (tr, g')
    /\ (occupancy b - 3 * Z.of_nat (List.length dts)
        <= occupancy (final b tr)
        <= occupancy b + 2 * Z.of_nat (List.length dts))%Z.
Proof.
  revert b g. induction dts as [| dt rest IH]; intros b g Hocc Hseg.
  - exists [], g. split; [reflexivity |]. cbn. lia.
  - destruct (step_outcome b dt g Hocc Hseg)
      as (seg & b1 & g1 & _ & Hstep & Hocc1 & Hseg1 & Hd & _).
    destruct (IH b1 g1 Hocc1 Hseg1) as (tr & g2 & Hrun & Hdrift).
    exists (b1 :: tr), g2. cbn [run].
    rewrite (bind_ok _ _ _ _ _ Hstep), (bind_ok _ _ _ _ _ Hrun).
    split; [reflexivity |].
    assert (Hlast : final b (b1 :: tr) = final b1 tr).
    { unfold final. destruct tr as [| x tr']; [reflexivity |].
      cbn [last]. apply (last_nonempty (x :: tr')). discriminate. }
    rewrite Hlast. cbn [List.length]. lia.
Qed.

Lemma occupancy_drift_is_bounded_witness :
  exists tr g',
    run Sample.loop_bus [1000; 1000] Sample.tape0 = Py.Ok (tr, g')
    /\ (14 <= occupancy (final Sample.loop_bus tr) <= 24)%Z.
Proof.
  destruct (occupancy_drift_is_bounded Sample.loop_bus [1000; 1000]
              Sample.tape0) as (tr & g' & Hrun & Hd).
  - unfold occupancy_ok. cbn. lia.
  - unfold segment_ok. cbn. lia.
  - exists tr, g'. split; [exact Hrun |]. cbn in Hd. lia.
Defined.

Lemma index_In {A} (l : list A) (i : Z) (a : A) :
  Py.index l i = Py.Ok a -> In a l.
Proof.
  unfold Py.index. intros H.
  destruct (_ && _)%bool; [| discriminate].
  destruct (nth_error l _) as [x |] eqn:Hnth; [| discriminate].
  injection H as <-. eapply nth_error_In. exact Hnth.
Qed.

Lemma run_long_calls (dts : list R) :
  forall (b : BusThread) (g : Py.rng),
    occupancy_ok b -> segment_ok b -> 0 <= frac b ->
    Forall (long_for b) dts ->
    exists tr g',
      run b dts g = Py.Ok (tr, g')
      /\ current_segment (final b tr)
         = ((current_segment b + Z.of_nat (List.length dts))
              mod Z.of_nat (List.length (segments b)))%Z
      /\ (dts <> [] -> frac (final b tr) = 0).
Proof.
  induction dts as [| dt rest IH]; intros b g Hocc Hseg Hf Hall.
  - exists [], g. split; [reflexivity |]. unfold final. cbn [last List.length].
    split; [| congruence].
    rewrite Z.add_0_r, Z.mod_small by exact Hseg. reflexivity.
  - inversion Hall as [| ? ? Hdt Hrest]; subst.
    destruct (step_outcome b dt g Hocc Hseg)
      as (seg & b1 & g1 & Hidx & Hstep & Hocc1 & Hseg1 & _ & Hcase).
    destruct (step_static b b1 dt g g1 Hstep)
      as (_ & _ & _ & _ & Hspd & Hsegs).
    destruct Hcase as [(Hpos & Hlt & _ & _) | (_ & Hf1 & Hcs1)].
    { exfalso. destruct (Hdt seg (index_In _ _ _ Hidx)) as [Hz | Hq];
        [lra |]. unfold advance in Hlt. lra. }
    destruct (IH b1 g1) as (tr & g2 & Hrun & Hcs & _); try assumption.
    { lra. }
    { eapply Forall_impl; [| exact Hrest].
      intros dt' Hlong. unfold long_for in *. rewrite Hsegs, Hspd.
      exact Hlong. }
    exists (b1 :: tr), g2. cbn [run].
    rewrite (bind_ok _ _ _ _ _ Hstep), (bind_ok _ _ _ _ _ Hrun).
    split; [reflexivity |].
    assert (Hlast : final b (b1 :: tr) = final b1 tr).
    { unfold final. destruct tr as [| x tr']; [reflexivity |].
      cbn [last]. apply (last_nonempty (x :: tr')). discriminate. }
    rewrite Hlast. split.
    + rewrite Hcs, Hcs1, Hsegs. cbn [List.length].
      rewrite Zplus_mod_idemp_l. f_equal. lia.
    + intros _. destruct rest as [| dt2 rest'].
      * cbn [run] in Hrun. injection Hrun as <- _. exact Hf1.
      * destruct (IH b1 g1) as (tr2 & g3 & Hrun2 & _ & Hfr);
          try assumption.
        { lra. }
        { eapply Forall_impl; [| exact Hrest].
          intros dt' Hlong. unfold long_for in *. rewrite Hsegs, Hspd.
          exact Hlong. }
        rewrite Hrun in Hrun2. injection Hrun2 as <- _.
        apply Hfr. discriminate.
Qed.

(** X10. Calls whose elapsed time covers any segment of the route (segments of
    length zero are covered by any elapsed time, even 0) each complete one
    segment: after [k] such calls the index has moved by [k] modulo the
    number of segments, and after as many calls as the route has segments
    the vehicle is back on the segment it started from. *)
Theorem long_calls_cycle_the_route
    (b : BusThread) (dts : list R) (g : Py.rng) :
  occupancy_ok b -> segment_ok b -> 0 <= frac b ->
  Forall (long_for b) dts ->
  exists tr g',
    run b dts g = Py.Ok (tr, g')
    /\ current_segment (final b tr)
       = ((current_segment b + Z.of_nat (List.length dts))
            mod Z.of_nat (List.length (segments b)))%Z
    /\ (List.length dts = List.length (segments b) ->
        current_segment (final b tr) = current_segment b).
Proof.
  intros Hocc Hseg Hf Hall.
  destruct (run_long_calls dts b g Hocc Hseg Hf Hall)
    as (tr & g' & Hrun & Hcs & _).
  exists tr, g'. split; [exact Hrun |]. split; [exact Hcs |].
  intros Hlen. rewrite Hcs, Hlen.
  unfold segment_ok in Hseg.
  rewrite <- (Z.mul_1_l (Z.of_nat (List.length (segments b)))) at 1.
  rewrite Z_mod_plus_full. apply Z.mod_small. lia.
Qed.

Lemma long_calls_cycle_the_route_witness :
  exists tr g',
    run Sample.loop_bus [1000; 1000] Sample.tape0 = Py.Ok (tr, g')
    /\ current_segment (final Sample.loop_bus tr) = 0%Z.
Proof.
  destruct (long_calls_cycle_the_route Sample.loop_bus [1000; 1000]
              Sample.tape0) as (tr & g' & Hrun & _ & Hback).
  - unfold occupancy_ok. cbn. lia.
  - unfold segment_ok. cbn. lia.
  - cbn. lra.
  - assert (Hlong : long_for Sample.loop_bus 1000).
    { intros s Hs. right. cbn [Sample.loop_bus speed_kmph].
      cbn in Hs. destruct Hs as [<- | [<- | []]]; cbn [dist_km];
        rewrite fmax_above by lra; lra. }
    constructor; [exact Hlong |]. constructor; [exact Hlong |].
    constructor.
  - exists tr, g'. split; [exact Hrun |]. apply Hback. reflexivity.
Defined.



End SimExtra.

(** ** The fleet *)

Module FleetProps.
Import MovingSim.
Import SimProps.
Import Fleet.
Local Open Scope string_scope.

Lemma str_of_int_inj (a b : Z) : str_of_int a = str_of_int b -> a = b.
Proof.
  unfold str_of_int. intros H.
  assert (Hparse : forall z,
            DecimalString.NilZero.int_of_string
              (DecimalString.NilZero.string_of_int (Z.to_int z))
            = Some (Z.to_int z)).
  { intros z. apply DecimalString.NilZero.isi; destruct z; cbn;
      try discriminate; intros [= Hp]; revert Hp;
      apply DecimalPos.Unsigned.to_uint_nonnil. }
  apply (f_equal DecimalString.NilZero.int_of_string) in H.
  rewrite !Hparse in H. injection H as H.
  apply (f_equal Z.of_int) in H. rewrite !DecimalZ.of_to in H. exact H.
Qed.

Lemma append_cancel_l (p x y : string) : p ++ x = p ++ y -> x = y.
Proof.
  induction p as [| c p IH]; cbn; intros H; [exact H |].
  injection H as H. apply IH. exact H.
Qed.

Lemma build_segments_length (wps : list GeoPoint) :
  List.length (build_segments wps) = (List.length wps - 1)%nat.
Proof.
  induction wps as [| a [| c wps'] IH]; try reflexivity.
  change (build_segments (a :: c :: wps'))
    with (mkSegment a c (haversine_km (fst a) (snd a) (fst c) (snd c))
          :: build_segments (c :: wps')).
  cbn [List.length] in *. lia.
Qed.

Lemma routes_have_two_stops :
  Forall (fun r => (2 <= List.length (stops r))%nat) ROUTES.
Proof. repeat constructor; cbn; lia. Qed.

(** What the spawning loop builds, from any index. *)
Lemma spawn_from_spec (n : nat) :
  forall (i : Z) (g : Py.rng),
    (0 <= i)%Z ->
    exists threads g',
      spawn_from i n g = Py.Ok (threads, g')
      /\ List.length threads = n
      /\ forall (k : nat) (t : BusThread),
           nth_error threads k = Some t ->
           exists route,
             nth_error ROUTES
               (Z.to_nat ((i + Z.of_nat k)
                            mod Z.of_nat (List.length ROUTES)))
             = Some route
             /\ bus_id t = "PTC" ++ str_of_int (101 + (i + Z.of_nat k))
             /\ route_name t = name route
             /\ waypoints t = stops route
             /\ occupancy_ok t /\ segment_ok t /\ frac t = 0
             /\ List.length (segments t)
                = (List.length (stops route) - 1)%nat.
Proof.
  induction n as [| n IH]; intros i g Hi.
  - exists [], g. repeat split. intros [| k] t; discriminate.
  - cbn [spawn_from].
    assert (Hlen : Z.of_nat (List.length ROUTES) = 10%Z) by reflexivity.
    assert (Hk : (0 <= i mod Z.of_nat (List.length ROUTES)
                  < Z.of_nat (List.length ROUTES))%Z)
      by (apply Z.mod_pos_bound; lia).
    rewrite (bind_ok _ _ g (i mod Z.of_nat (List.length ROUTES))%Z g).
    2:{ unfold Py.lift, Py.imod. rewrite Hlen. reflexivity. }
    destruct (index_in_range ROUTES _ Hk) as (route & Hidx & Hnth).
    rewrite (bind_ok _ _ g route g)
      by (unfold Py.lift; rewrite Hidx; reflexivity).
    assert (Hstops : (2 <= List.length (stops route))%nat).
    { pose proof routes_have_two_stops as Hall.
      rewrite Forall_forall in Hall. apply Hall.
      eapply nth_error_In. exact Hnth. }
    destruct (init_spec ("PTC" ++ str_of_int (101 + i)) route POST_INTERVAL g)
      as (occ & spd & Hocc & Hspd & Hinit).
    destruct (stops route) as [| w0 [| w1 rest]] eqn:Hst;
      [cbn in Hstops; lia | cbn in Hstops; lia |].
    rewrite (bind_ok _ _ _ _ _ Hinit).
    destruct (IH (i + 1)%Z (Py.rng_tail (Py.rng_tail g)) ltac:(lia))
      as (threads & g' & Hspawn & Hn & Hall).
    rewrite (bind_ok _ _ _ _ _ Hspawn).
    do 2 eexists. split; [reflexivity |].
    split; [cbn; rewrite Hn; reflexivity |].
    intros [| k] t Ht.
    + cbn in Ht. injection Ht as <-. exists route.
      rewrite Z.add_0_r. split; [exact Hnth |].
      cbn [bus_id route_name waypoints occupancy current_segment frac
           segments].
      split; [reflexivity |]. split; [reflexivity |].
      split; [symmetry; exact Hst |].
      split; [unfold occupancy_ok; cbn; lia |].
      change (build_segments (w0 :: w1 :: rest))
        with (mkSegment w0 w1
                (haversine_km (fst w0) (snd w0) (fst w1) (snd w1))
              :: build_segments (w1 :: rest)).
      split; [unfold segment_ok; cbn [current_segment segments List.length];
              lia |].
      split; [reflexivity |].
      rewrite Hst. cbn [List.length].
      pose proof (build_segments_length (w1 :: rest)) as Hbl.
      cbn [build_segments List.length] in Hbl. lia.
    + cbn [nth_error] in Ht. destruct (Hall k t Ht) as (r & Hr & Hid & H).
      exists r.
      replace (i + Z.of_nat (S k))%Z with (i + 1 + Z.of_nat k)%Z by lia.
      split; [exact Hr |]. split; [exact Hid | exact H].
Qed.

(** X12. [start_sim] never raises, whatever the number of buses asked for (none
    are built for a negative number): it builds exactly that many
    vehicles, the one of index [i] is named "PTC" followed by [101 + i] and
    runs on the route of index [i] modulo the number of routes, every
    vehicle is sound with one segment per pair of consecutive stops, and no
    two vehicles share a name. *)
Theorem start_sim_builds_the_fleet (num_buses : Z) (g : Py.rng) :
  exists threads g',
    start_sim num_buses g = Py.Ok (threads, g')
    /\ List.length threads = Z.to_nat num_buses
    /\ (forall (k : nat) (t : BusThread),
          nth_error threads k = Some t ->
          exists route,
            nth_error ROUTES (k mod List.length ROUTES) = Some route
            /\ bus_id t = "PTC" ++ str_of_int (101 + Z.of_nat k)
            /\ route_name t = name route
            /\ waypoints t = stops route
            /\ occupancy_ok t /\ segment_ok t /\ frac t = 0
            /\ List.length (segments t)
               = (List.length (stops route) - 1)%nat)
    /\ NoDup (map bus_id threads).
Proof.
  unfold start_sim.
  destruct (spawn_from_spec (Z.to_nat num_buses) 0 g ltac:(lia))
    as (threads & g' & Hspawn & Hlen & Hall).
  exists threads, g'. split; [exact Hspawn |]. split; [exact Hlen |].
  split.
  - intros k t Ht. destruct (Hall k t Ht) as (r & Hr & H).
    exists r. rewrite Z.add_0_l in Hr, H.
    split; [| exact H].
    rewrite <- Hr. f_equal.
    change (Z.of_nat (List.length ROUTES)) with (Z.of_nat 10).
    rewrite <- Nat2Z.inj_mod, Nat2Z.id. reflexivity.
  - apply NoDup_nth_error. intros a b Ha Heq.
    rewrite length_map in Ha.
    rewrite !nth_error_map in Heq.
    destruct (nth_error threads a) as [ta |] eqn:Hta.
    2:{ apply nth_error_None in Hta. lia. }
    destruct (nth_error threads b) as [tb |] eqn:Htb; [| discriminate].
    destruct (Hall a ta Hta) as (_ & _ & Hida & _).
    destruct (Hall b tb Htb) as (_ & _ & Hidb & _).
    cbn in Heq. injection Heq as Heq. rewrite Hida, Hidb in Heq.
    apply append_cancel_l, str_of_int_inj in Heq. lia.
Qed.

End FleetProps.

(** ** The handlers over the [buses] table *)

Module BackendProps.
Import Main.
Import Backend.
Local Open Scope string_scope.
Local Open Scope list_scope.

Lemma first_bus_id (k : string) (db : list Bus) (b : Bus) :
  first_bus k db = Some b -> In b db /\ bus_id b = k.
Proof.
  unfold first_bus. intros H. apply find_some in H.
  destruct H as [Hin Heq]. apply String.eqb_eq in Heq. tauto.
Qed.

Lemma first_bus_none (k : string) (db : list Bus) :
  first_bus k db = None <-> (forall b, In b db -> bus_id b <> k).
Proof.
  unfold first_bus. split.
  - intros H b Hb Heq. apply (find_none _ _ H) in Hb.
    apply String.eqb_neq in Hb. contradiction.
  - intros H. induction db as [| b rest IH]; [reflexivity |].
    cbn [find]. destruct (String.eqb_spec (bus_id b) k) as [Heq | _].
    + exfalso. apply (H b); [left; reflexivity | exact Heq].
    + apply IH. intros b' Hb'. apply H. right. exact Hb'.
Qed.

Section Mutation.
Variable k : string.
Variable f : Bus -> Bus.
Hypothesis f_keeps_id : forall b, bus_id (f b) = bus_id b.

Lemma mutate_first_ids (db : list Bus) :
  map bus_id (mutate_first k f db) = map bus_id db.
Proof.
  induction db as [| b rest IH]; [reflexivity |]. cbn [mutate_first].
  destruct (String.eqb (bus_id b) k); cbn [map].
  - rewrite f_keeps_id. reflexivity.
  - rewrite IH. reflexivity.
Qed.

Lemma first_bus_mutated (db : list Bus) :
  first_bus k (mutate_first k f db) = option_map f (first_bus k db).
Proof.
  unfold first_bus.
  induction db as [| b rest IH]; [reflexivity |]. cbn [mutate_first find].
  destruct (String.eqb (bus_id b) k) eqn:Hb; cbn [find].
  - rewrite f_keeps_id, Hb. reflexivity.
  - rewrite Hb. exact IH.
Qed.

Lemma first_bus_not_mutated (k' : string) (db : list Bus) :
  k' <> k -> first_bus k' (mutate_first k f db) = first_bus k' db.
Proof.
  intros Hne. unfold first_bus.
  induction db as [| b rest IH]; [reflexivity |]. cbn [mutate_first find].
  destruct (String.eqb_spec (bus_id b) k) as [Hb | Hb]; cbn [find].
  - rewrite f_keeps_id.
    destruct (String.eqb_spec (bus_id b) k') as [Hb' | _]; [| reflexivity].
    congruence.
  - destruct (String.eqb (bus_id b) k'); [reflexivity | exact IH].
Qed.

Lemma mutate_first_length (db : list Bus) :
  List.length (mutate_first k f db) = List.length db.
Proof.
  induction db as [| b rest IH]; [reflexivity |]. cbn [mutate_first].
  destruct (String.eqb (bus_id b) k); cbn [List.length]; congruence.
Qed.

End Mutation.

Lemma first_bus_app (k : string) (db1 db2 : list Bus) :
  first_bus k (db1 ++ db2)
  = match first_bus k db1 with
    | Some b => Some b
    | None => first_bus k db2
    end.
Proof.
  unfold first_bus. induction db1 as [| x rest IH]; [reflexivity |].
  cbn [app find]. destruct (String.eqb (bus_id x) k); [reflexivity | exact IH].
Qed.

Lemma first_bus_appended (k : string) (db : list Bus) (b : Bus) :
  first_bus k db = None ->
  first_bus k (db ++ [b])
  = if String.eqb (bus_id b) k then Some b else None.
Proof.
  unfold first_bus. intros Hnone.
  induction db as [| x rest IH]; [reflexivity |].
  cbn [app find] in *.
  destruct (String.eqb (bus_id x) k); [discriminate | apply IH; exact Hnone].
Qed.

Section UpdateProps.
Variable overflow_text : string.

(** A refused commit: the reply is a 500 and the table is untouched. *)
Lemma update_bus_refused (payload : BusUpdate) (now : R) (db : list Bus) :
  fits_int64 (p_occupancy payload) = false ->
  update_bus overflow_text payload now db
  = (Abort (mkHTTPException 500
              ("Internal server error (update): " ++ overflow_text)%string),
     db).
Proof. intros Hfit. unfold update_bus. rewrite Hfit. reflexivity. Qed.

Lemma update_bus_table (payload : BusUpdate) (now : R) (db : list Bus) :
  fits_int64 (p_occupancy payload) = true ->
  snd (update_bus overflow_text payload now db)
  = match first_bus (p_bus_id payload) db with
    | Some _ => mutate_first (p_bus_id payload) (written payload now) db
    | None =>
        db ++ [mkBus (next_id db) (p_bus_id payload)
                 (Some (p_latitude payload)) (Some (p_longitude payload))
                 (Some (p_occupancy payload)) (p_route payload)
                 (Some (Py.int_of_float now))]
    end.
Proof.
  intros Hfit. unfold update_bus. rewrite Hfit.
  destruct (first_bus (p_bus_id payload) db); reflexivity.
Qed.

End UpdateProps.

(** X13. After an [/update] whose occupancy fits a 64-bit integer,
    [/bus/{id}] returns the payload: the position, the occupancy and the
    route that were sent, stamped with the integer part of the clock,
    whatever the table held before; and the reply names the bus.  An
    occupancy outside 64 bits is answered with status 500 and leaves the
    table as it was. *)
Theorem update_then_get_returns_payload
    (overflow_text : string) (payload : BusUpdate) (now : R)
    (db : list Bus) :
  (fits_int64 (p_occupancy payload) = true ->
   fst (update_bus overflow_text payload now db)
   = Reply (mkUpdateOk "ok" (p_bus_id payload))
   /\ get_bus (p_bus_id payload)
        (snd (update_bus overflow_text payload now db))
      = Reply (mkBusDict (p_bus_id payload)
                 (Some (p_latitude payload)) (Some (p_longitude payload))
                 (Some (p_occupancy payload)) (p_route payload)
                 (Some (Py.int_of_float now))))
  /\ (fits_int64 (p_occupancy payload) = false ->
      exists e,
        update_bus overflow_text payload now db = (Abort e, db)
        /\ status_code e = 500%Z).
Proof.
  split.
  - intros Hfit. split.
    + unfold update_bus. rewrite Hfit.
      destruct (first_bus (p_bus_id payload) db) as [bus |] eqn:Hfirst;
        [| reflexivity].
      destruct (first_bus_id _ _ _ Hfirst) as [_ Hid].
      cbn. rewrite Hid. reflexivity.
    + rewrite update_bus_table by exact Hfit. unfold get_bus, get_bus_try.
      destruct (first_bus (p_bus_id payload) db) as [bus |] eqn:Hfirst.
      * destruct (first_bus_id _ _ _ Hfirst) as [_ Hid].
        rewrite first_bus_mutated by reflexivity. rewrite Hfirst.
        unfold written, bus_to_dict. cbn. rewrite Hid. reflexivity.
      * rewrite first_bus_appended by exact Hfirst.
        cbn [bus_id]. rewrite String.eqb_refl. reflexivity.
  - intros Hfit. rewrite update_bus_refused by exact Hfit.
    eexists. split; reflexivity.
Qed.

Lemma update_then_get_returns_payload_witness :
  get_bus "PTC101"
    (snd (update_bus SampleStore.overflow_text SampleStore.update_a 100 []))
  = Reply (mkBusDict "PTC101" (Some 31.6340) (Some 74.8737) (Some 12%Z)
             (Some "Amritsar") (Some (Py.int_of_float 100)))
  /\ exists e,
       update_bus SampleStore.overflow_text SampleStore.update_big 100
         SampleStore.two_buses
       = (Abort e, SampleStore.two_buses)
       /\ status_code e = 500%Z.
Proof.
  split.
  - apply (update_then_get_returns_payload SampleStore.overflow_text
             SampleStore.update_a 100 []).
    reflexivity.
  - apply (update_then_get_returns_payload SampleStore.overflow_text
             SampleStore.update_big 100 SampleStore.two_buses).
    reflexivity.
Defined.

(** X14. [/update] for one bus changes nothing of what [/bus/{id}] returns for
    another. *)
Theorem update_leaves_other_buses
    (overflow_text : string) (payload : BusUpdate) (now : R)
    (db : list Bus) (k : string) :
  k <> p_bus_id payload ->
  get_bus k (snd (update_bus overflow_text payload now db)) = get_bus k db.
Proof.
  intros Hne.
  destruct (fits_int64 (p_occupancy payload)) eqn:Hfit;
    [| rewrite update_bus_refused by exact Hfit; reflexivity].
  rewrite update_bus_table by exact Hfit. unfold get_bus, get_bus_try.
  destruct (first_bus (p_bus_id payload) db) as [bus |] eqn:Hfirst.
  - rewrite first_bus_not_mutated; [reflexivity | reflexivity | exact Hne].
  - rewrite first_bus_app.
    destruct (first_bus k db); [reflexivity |].
    unfold first_bus. cbn [find bus_id].
    destruct (String.eqb_spec (p_bus_id payload) k); [congruence |].
    reflexivity.
Qed.

Lemma update_leaves_other_buses_witness :
  get_bus "PTC102"
    (snd (update_bus SampleStore.overflow_text SampleStore.update_a2 300
            (after_updates SampleStore.overflow_text
               [(SampleStore.update_a, 100);
                (SampleStore.update_b, 200)] [])))
  = get_bus "PTC102"
      (after_updates SampleStore.overflow_text
         [(SampleStore.update_a, 100);
          (SampleStore.update_b, 200)] []).
Proof.
  apply (update_leaves_other_buses SampleStore.overflow_text
           SampleStore.update_a2 300).
  cbn. discriminate.
Defined.

Lemma mutate_first_map {B : Type} (p : Bus -> B) (k : string)
    (f : Bus -> Bus) (db : list Bus) :
  (forall b, p (f b) = p b) -> map p (mutate_first k f db) = map p db.
Proof.
  intros Hp. induction db as [| b rest IH]; [reflexivity |].
  cbn [mutate_first]. destruct (String.eqb (bus_id b) k); cbn [map].
  - rewrite Hp. reflexivity.
  - rewrite IH. reflexivity.
Qed.

Lemma mutate_first_idem (k : string) (f : Bus -> Bus) (db : list Bus) :
  (forall b, bus_id (f b) = bus_id b) -> (forall b, f (f b) = f b) ->
  mutate_first k f (mutate_first k f db) = mutate_first k f db.
Proof.
  intros Hid Hff. induction db as [| b rest IH]; [reflexivity |].
  cbn [mutate_first]. destruct (String.eqb (bus_id b) k) eqn:Hb;
    cbn [mutate_first].
  - rewrite Hid, Hb, Hff. reflexivity.
  - rewrite Hb, IH. reflexivity.
Qed.

Lemma next_id_fresh (db : list Bus) (b : Bus) :
  In b db -> (id b < next_id db)%Z.
Proof.
  unfold next_id. induction db as [| x rest IH]; [intros [] |].
  cbn [map fold_right]. intros [<- | Hin]; [lia |].
  specialize (IH Hin). lia.
Qed.

Lemma NoDup_snoc {A} (l : list A) (x : A) :
  NoDup l -> ~ In x l -> NoDup (l ++ [x]).
Proof.
  intros Hl Hx. apply (Permutation_NoDup (l := x :: l)).
  - apply Permutation_cons_append.
  - constructor; assumption.
Qed.

(** One [/update], committed or refused, keeps the keys of a table
    distinct and removes no bus. *)
Lemma update_bus_keeps (overflow_text : string) (payload : BusUpdate)
    (now : R) (db : list Bus) :
  NoDup (map bus_id db) -> NoDup (map id db) ->
  NoDup (map bus_id (snd (update_bus overflow_text payload now db)))
  /\ NoDup (map id (snd (update_bus overflow_text payload now db)))
  /\ incl (map bus_id db)
       (map bus_id (snd (update_bus overflow_text payload now db)))
  /\ (List.length db
      <= List.length (snd (update_bus overflow_text payload now db))
      <= S (List.length db))%nat.
Proof.
  intros Hk Hid.
  destruct (fits_int64 (p_occupancy payload)) eqn:Hfit.
  2: { rewrite update_bus_refused by exact Hfit. cbn [snd].
       split; [exact Hk |]. split; [exact Hid |].
       split; [apply incl_refl | lia]. }
  rewrite update_bus_table by exact Hfit.
  destruct (first_bus (p_bus_id payload) db) as [bus |] eqn:Hfirst.
  - rewrite !mutate_first_map by reflexivity.
    rewrite mutate_first_length.
    split; [exact Hk |]. split; [exact Hid |].
    split; [apply incl_refl | lia].
  - rewrite !map_app, length_app. cbn [map List.length bus_id id].
    split; [| split; [| split; [| lia]]].
    + apply NoDup_snoc; [exact Hk |].
      intros Hin. apply in_map_iff in Hin. destruct Hin as (b & Hb & Hin).
      apply (proj1 (first_bus_none _ _) Hfirst b Hin Hb).
    + apply NoDup_snoc; [exact Hid |].
      intros Hin. apply in_map_iff in Hin. destruct Hin as (b & Hb & Hin).
      pose proof (next_id_fresh db b Hin). lia.
    + apply incl_appl, incl_refl.
Qed.

(** X15. Under any sequence of [/update] calls, committed or refused, the
    bus ids and the primary keys of the table stay unique, no bus id is
    ever removed, and each call adds at most one row. *)
Theorem updates_keep_table_well_formed
    (overflow_text : string) (calls : list (BusUpdate * R))
    (db : list Bus) :
  NoDup (map bus_id db) -> NoDup (map id db) ->
  NoDup (map bus_id (after_updates overflow_text calls db))
  /\ NoDup (map id (after_updates overflow_text calls db))
  /\ incl (map bus_id db)
       (map bus_id (after_updates overflow_text calls db))
  /\ (List.length db
      <= List.length (after_updates overflow_text calls db)
      <= List.length db + List.length calls)%nat.
Proof.
  revert db.
  induction calls as [| [payload now] rest IH]; intros db Hk Hid.
  - cbn. split; [exact Hk |]. split; [exact Hid |].
    split; [apply incl_refl | lia].
  - destruct (update_bus_keeps overflow_text payload now db Hk Hid)
      as (Hk1 & Hid1 & Hin1 & Hlen1).
    destruct (IH _ Hk1 Hid1) as (Hk2 & Hid2 & Hin2 & Hlen2).
    unfold after_updates in *. cbn [fold_left fst snd List.length].
    split; [exact Hk2 |]. split; [exact Hid2 |].
    split; [eapply incl_tran; [exact Hin1 | exact Hin2] | lia].
Qed.

Lemma updates_keep_table_well_formed_witness :
  NoDup (map bus_id SampleStore.two_buses)
  /\ (List.length SampleStore.two_buses <= 3)%nat.
Proof.
  destruct (updates_keep_table_well_formed SampleStore.overflow_text
              [(SampleStore.update_a, 100); (SampleStore.update_b, 200);
               (SampleStore.update_a2, 300)] [])
    as (Hk & _ & _ & Hlen).
  - constructor.
  - constructor.
  - split; [exact Hk | apply Hlen].
Defined.

(** X16. Sending the same [/update] twice at the same clock reading leaves the
    table as sending it once. *)
Theorem update_bus_idempotent
    (overflow_text : string) (payload : BusUpdate) (now : R)
    (db : list Bus) :
  snd (update_bus overflow_text payload now
         (snd (update_bus overflow_text payload now db)))
  = snd (update_bus overflow_text payload now db).
Proof.
  destruct (fits_int64 (p_occupancy payload)) eqn:Hfit;
    [| rewrite !update_bus_refused by exact Hfit; reflexivity].
  rewrite (update_bus_table overflow_text payload now db Hfit).
  destruct (first_bus (p_bus_id payload) db) as [bus |] eqn:Hfirst.
  - rewrite update_bus_table by exact Hfit.
    rewrite first_bus_mutated by reflexivity. rewrite Hfirst.
    cbn [option_map]. apply mutate_first_idem; reflexivity.
  - rewrite update_bus_table by exact Hfit.
    rewrite first_bus_appended by exact Hfirst.
    cbn [bus_id]. rewrite String.eqb_refl.
    assert (Hsame : forall (f : Bus -> Bus) (x : Bus),
              bus_id x = p_bus_id payload -> f x = x ->
              mutate_first (p_bus_id payload) f (db ++ [x]) = db ++ [x]).
    { intros f x Hx Hfx.
      pose proof (proj1 (first_bus_none _ _) Hfirst) as Hnone.
      clear Hfirst. induction db as [| y rest IH].
      - cbn. rewrite Hx, String.eqb_refl, Hfx. reflexivity.
      - cbn [app mutate_first].
        destruct (String.eqb_spec (bus_id y) (p_bus_id payload)) as [Hy | _].
        + exfalso. apply (Hnone y); [left; reflexivity | exact Hy].
        + f_equal. apply IH. intros b Hb. apply Hnone. right. exact Hb. }
    apply Hsame; reflexivity.
Qed.

(** X17. [/bus/{id}] answers 404 "Bus not found" exactly when no row has the
    id, and otherwise returns the dictionary of a row with that id; it
    never answers 500. *)
Theorem get_bus_found_or_404 (k : string) (db : list Bus) :
  (get_bus k db = Abort (mkHTTPException 404 "Bus not found")
   <-> forall b, In b db -> bus_id b <> k)
  /\ (forall d, get_bus k db = Reply d ->
        exists b, In b db /\ bus_id b = k /\ d = bus_to_dict b)
  /\ (forall e, get_bus k db = Abort e -> status_code e = 404%Z).
Proof.
  unfold get_bus, get_bus_try.
  destruct (first_bus k db) as [bus |] eqn:Hfirst.
  - destruct (first_bus_id _ _ _ Hfirst) as [Hin Hid].
    split; [| split].
    + split; [discriminate |]. intros Hnone. exfalso.
      apply (Hnone bus Hin Hid).
    + intros d [= <-]. exists bus. repeat split; assumption.
    + discriminate.
  - split; [| split].
    + split; [intros _; apply first_bus_none; exact Hfirst | reflexivity].
    + discriminate.
    + intros e [= <-]. reflexivity.
Qed.

Lemma mutate_first_fixed (k : string) (f : Bus -> Bus) (db : list Bus)
    (bus : Bus) :
  first_bus k db = Some bus -> f bus = bus -> mutate_first k f db = db.
Proof.
  unfold first_bus. intros Hfirst Hf.
  induction db as [| b rest IH]; [reflexivity |].
  cbn [find mutate_first] in *.
  destruct (String.eqb (bus_id b) k).
  - injection Hfirst as ->. rewrite Hf. reflexivity.
  - rewrite IH by exact Hfirst. reflexivity.
Qed.

Lemma mutate_first_twice (k : string) (f h : Bus -> Bus) (db : list Bus) :
  (forall b, bus_id (f b) = bus_id b) ->
  mutate_first k h (mutate_first k f db)
  = mutate_first k (fun b => h (f b)) db.
Proof.
  intros Hid. induction db as [| b rest IH]; [reflexivity |].
  cbn [mutate_first]. destruct (String.eqb (bus_id b) k) eqn:Hb;
    cbn [mutate_first].
  - rewrite Hid, Hb. reflexivity.
  - rewrite Hb, IH. reflexivity.
Qed.

Lemma set_occupancy_same (n : Z) (bus : Bus) :
  occupancy bus = Some n -> set_occupancy n bus = bus.
Proof. destruct bus. cbn. intros ->. reflexivity. Qed.

(** What [update_passenger_count] does on a row with a stored count. *)
Lemma count_update_table (k action : string) (db : list Bus) (bus : Bus)
    (occ : Z) :
  first_bus k db = Some bus -> occupancy bus = Some occ ->
  update_passenger_count k action db
  = (Reply (mkCountOk "ok" (Some (counted action occ))),
     mutate_first k (set_occupancy (counted action occ)) db).
Proof.
  intros Hfirst Hocc.
  unfold update_passenger_count, update_passenger_count_try, counted.
  rewrite Hfirst, Hocc.
  destruct (String.eqb action "increment"); [reflexivity |].
  destruct (String.eqb action "decrement"); [reflexivity |].
  rewrite (mutate_first_fixed k _ db bus Hfirst); [reflexivity |].
  apply set_occupancy_same. exact Hocc.
Qed.

(** X18. A count update for a bus that has no row answers 500, not 404: the
    404 raised in the [try] block is caught by the handler's own
    [except Exception].  So does an increment or a decrement on a row
    whose occupancy is NULL.  In both cases the table is left as it was. *)
Theorem count_update_failures_are_500 (k action : string) (db : list Bus) :
  (forall b, In b db -> bus_id b <> k)
  \/ (exists bus,
        first_bus k db = Some bus /\ occupancy bus = None
        /\ (action = "increment" \/ action = "decrement")) ->
  update_passenger_count k action db
  = (Abort (mkHTTPException 500 "Failed to update passenger count"), db).
Proof.
  unfold update_passenger_count, update_passenger_count_try.
  intros [Hnone | (bus & Hfirst & Hocc & Hact)].
  - apply first_bus_none in Hnone. rewrite Hnone. reflexivity.
  - rewrite Hfirst, Hocc. destruct Hact as [-> | ->]; reflexivity.
Qed.

Lemma count_update_failures_are_500_witness :
  update_passenger_count "PTC999" "increment" SampleStore.two_buses
  = (Abort (mkHTTPException 500 "Failed to update passenger count"),
     SampleStore.two_buses).
Proof.
  apply count_update_failures_are_500. left.
  intros b Hb. cbn in Hb.
  destruct Hb as [<- | [<- | []]]; cbn; discriminate.
Defined.

(** X19. On a row with a stored count, "increment" stores and returns
    [min(50, count + 1)], "decrement" [max(0, count - 1)], and any other
    action returns the count unchanged.  A count in [[0, 50]] stays there;
    only the occupancy of that bus changes, and [/bus/{id}] shows it. *)
Theorem count_update_effect (k action : string) (db : list Bus) (bus : Bus)
    (occ : Z) :
  first_bus k db = Some bus -> occupancy bus = Some occ ->
  fst (update_passenger_count k action db)
  = Reply (mkCountOk "ok" (Some (counted action occ)))
  /\ get_bus k (snd (update_passenger_count k action db))
     = Reply (mkBusDict (bus_id bus)
                (d_latitude (bus_to_dict bus)) (d_longitude (bus_to_dict bus))
                (Some (counted action occ)) (route bus)
                (d_last_update (bus_to_dict bus)))
  /\ (forall k', k' <> k ->
        get_bus k' (snd (update_passenger_count k action db))
        = get_bus k' db)
  /\ ((0 <= occ <= 50)%Z -> (0 <= counted action occ <= 50)%Z)
  /\ (counted action occ <= Z.max occ 50)%Z
  /\ (Z.min occ 0 <= counted action occ)%Z.
Proof.
  intros Hfirst Hocc.
  rewrite (count_update_table k action db bus occ Hfirst Hocc).
  cbn [fst snd]. split; [reflexivity |]. split; [| split].
  - unfold get_bus, get_bus_try.
    rewrite first_bus_mutated by reflexivity. rewrite Hfirst. reflexivity.
  - intros k' Hne. unfold get_bus, get_bus_try.
    rewrite first_bus_not_mutated; [reflexivity | reflexivity | exact Hne].
  - unfold counted.
    destruct (String.eqb action "increment");
      [| destruct (String.eqb action "decrement")]; repeat split; lia.
Qed.

Lemma count_update_effect_witness :
  fst (update_passenger_count "PTC102" "increment" SampleStore.two_buses)
  = Reply (mkCountOk "ok" (Some 50%Z)).
Proof.
  destruct (count_update_effect "PTC102" "increment" SampleStore.two_buses
              (mkBus 2 "PTC102" (Some 30.2110) (Some 74.9455) (Some 49%Z)
                 None (Some (Py.int_of_float 200))) 49)
    as (Hreply & _).
  - reflexivity.
  - reflexivity.
  - exact Hreply.
Defined.

(** X20. Below the cap, an increment followed by a decrement gives the table
    back; at the cap of 50 the increment is absorbed, so the pair leaves
    49. *)
Theorem increment_then_decrement (k : string) (db : list Bus) (bus : Bus)
    (occ : Z) :
  first_bus k db = Some bus -> occupancy bus = Some occ ->
  (0 <= occ <= 50)%Z ->
  let db1 := snd (update_passenger_count k "increment" db) in
  let db2 := snd (update_passenger_count k "decrement" db1) in
  ((occ < 50)%Z -> db2 = db)
  /\ (occ = 50%Z ->
      fst (update_passenger_count k "decrement" db1)
      = Reply (mkCountOk "ok" (Some 49%Z))).
Proof.
  intros Hfirst Hocc Hrange. cbv zeta.
  rewrite (count_update_table k "increment" db bus occ Hfirst Hocc).
  cbn [snd].
  set (n1 := counted "increment" occ).
  assert (Hfirst1 : first_bus k (mutate_first k (set_occupancy n1) db)
                    = Some (set_occupancy n1 bus)).
  { rewrite first_bus_mutated by reflexivity. rewrite Hfirst. reflexivity. }
  rewrite (count_update_table k "decrement" _ _ n1 Hfirst1 eq_refl).
  cbn [fst snd].
  assert (Hn1 : n1 = Z.min 50 (occ + 1)) by reflexivity.
  assert (Hn2 : counted "decrement" n1 = Z.max 0 (n1 - 1)) by reflexivity.
  split.
  - intros Hlt. rewrite mutate_first_twice by reflexivity.
    apply (mutate_first_fixed k _ db bus Hfirst).
    rewrite Hn2, Hn1.
    replace (Z.max 0 (Z.min 50 (occ + 1) - 1)) with occ by lia.
    destruct bus. cbn in *. subst. reflexivity.
  - intros ->. rewrite Hn2, Hn1. reflexivity.
Qed.

Lemma increment_then_decrement_witness :
  snd (update_passenger_count "PTC102" "decrement"
         (snd (update_passenger_count "PTC102" "increment"
                 SampleStore.two_buses)))
  = SampleStore.two_buses.
Proof.
  destruct (increment_then_decrement "PTC102" SampleStore.two_buses
              (mkBus 2 "PTC102" (Some 30.2110) (Some 74.9455) (Some 49%Z)
                 None (Some (Py.int_of_float 200))) 49)
    as (Hback & _).
  - reflexivity.
  - reflexivity.
  - lia.
  - apply Hback. lia.
Defined.

End BackendProps.

(** ** The enriched views *)

Module EnrichProps.
Import Main.
Import Backend.
Local Open Scope string_scope.
Local Open Scope list_scope.

Lemma Int_part_succ (x : R) : Int_part (x + 1) = (Int_part x + 1)%Z.
Proof.
  symmetry. apply Int_part_spec. rewrite plus_IZR.
  destruct (base_Int_part x) as [Hle Hgt]. lra.
Qed.

Lemma Int_part_shift (x : R) (n : nat) :
  Int_part (x + INR n) = (Int_part x + Z.of_nat n)%Z.
Proof.
  induction n as [| n IH].
  - cbn. rewrite Rplus_0_r. lia.
  - rewrite S_INR, <- Rplus_assoc, Int_part_succ, IH. lia.
Qed.

Lemma floordiv_next_window (now w : R) :
  0 < w -> Py.floordiv (now + w) w = (Py.floordiv now w + 1)%Z.
Proof.
  intros Hw. unfold Py.floordiv.
  replace ((now + w) / w) with (now / w + 1) by (field; lra).
  apply Int_part_succ.
Qed.

Lemma status_of_pick (hash : string -> Z) (now : R) (b : Bus) :
  let pick := ((Z.abs (hash (bus_id b)) + Py.floordiv now 300) mod 3)%Z in
  (pick = 0%Z /\ status_of hash now b = "on-time")
  \/ (pick = 1%Z /\ status_of hash now b = "delayed")
  \/ (pick = 2%Z /\ status_of hash now b = "early").
Proof.
  cbv zeta. unfold status_of.
  pose proof (Z.mod_pos_bound
                (Z.abs (hash (bus_id b)) + Py.floordiv now 300) 3
                ltac:(lia)) as Hp.
  set (p := ((Z.abs (hash (bus_id b)) + Py.floordiv now 300) mod 3)%Z) in *.
  assert (Hcase : p = 0%Z \/ p = 1%Z \/ p = 2%Z) by lia.
  destruct Hcase as [-> | [-> | ->]]; [left | right; left | right; right];
    split; reflexivity.
Qed.

(** X21. The status of an enriched view is always one of "on-time", "delayed"
    and "early" (the fallback of the handler is never needed); it is the
    same all through a 5-minute window, moves to the next status of the
    rotation when the clock moves by one window, and is back after three
    windows. *)
Theorem status_rotates_with_the_clock
    (hash : string -> Z) (now : R) (b : Bus) :
  let status t := e_status (_merge_bus hash t b) in
  In (status now) ["on-time"; "delayed"; "early"]
  /\ (forall t, Py.floordiv t 300 = Py.floordiv now 300 ->
        status t = status now)
  /\ status (now + 300) = next_status (status now)
  /\ status (now + 900) = status now.
Proof.
  cbv zeta. cbn [_merge_bus e_status].
  assert (Hnext : forall t,
            status_of hash (t + 300) b = next_status (status_of hash t b)).
  { intros t.
    destruct (status_of_pick hash t b) as [[Hp ->] | [[Hp ->] | [Hp ->]]];
      destruct (status_of_pick hash (t + 300) b)
        as [[Hq ->] | [[Hq ->] | [Hq ->]]];
      try reflexivity; exfalso;
      rewrite floordiv_next_window in Hq by lra;
      rewrite Z.add_assoc, <- Zplus_mod_idemp_l, Hp in Hq;
      cbn in Hq; discriminate. }
  split; [| split; [| split]].
  - destruct (status_of_pick hash now b) as [[_ ->] | [[_ ->] | [_ ->]]];
      cbn; tauto.
  - intros t Ht. unfold status_of. rewrite Ht. reflexivity.
  - apply Hnext.
  - replace (now + 900) with (now + 300 + 300 + 300) by ring.
    rewrite !Hnext.
    destruct (status_of_pick hash now b) as [[_ ->] | [[_ ->] | [_ ->]]];
      reflexivity.
Qed.

Lemma merge_bus_id (hash : string -> Z) (now : R) (b : Bus) :
  e_bus_id (_merge_bus hash now b) = bus_id b.
Proof. reflexivity. Qed.

Lemma merged_get_set (d : list (string * Enriched)) (k k' : string)
    (v : Enriched) :
  merged_get (merged_set d k v) k'
  = if String.eqb k k' then Some v else merged_get d k'.
Proof.
  induction d as [| [k0 v0] rest IH]; cbn [merged_set merged_get].
  - reflexivity.
  - destruct (String.eqb_spec k0 k) as [-> | Hne]; cbn [merged_get].
    + destruct (String.eqb k k'); reflexivity.
    + rewrite IH.
      destruct (String.eqb_spec k0 k') as [-> | _]; [| reflexivity].
      destruct (String.eqb_spec k k'); [congruence | reflexivity].
Qed.

(** The dictionary [merged]: a key is bound to the enriched view of a row
    with that id, and is bound as soon as such a row exists. *)
Lemma merged_of_rows (hash : string -> Z) (now : R) (buses : list Bus) :
  forall acc k,
    let merged :=
      fold_left (fun d b => merged_set d (bus_id b) (_merge_bus hash now b))
        buses acc in
    (forall e, merged_get merged k = Some e ->
       merged_get acc k = Some e
       \/ exists b, In b buses /\ bus_id b = k /\ e = _merge_bus hash now b)
    /\ (merged_get merged k = None ->
        merged_get acc k = None
        /\ forall b, In b buses -> bus_id b <> k).
Proof.
  induction buses as [| b rest IH]; intros acc k; cbv zeta in *.
  - cbn. split; [intros e He; left; exact He |].
    intros Hn. split; [exact Hn | intros b []].
  - cbn [fold_left]. destruct (IH (merged_set acc (bus_id b)
                                     (_merge_bus hash now b)) k)
      as [Hsome Hnone].
    split.
    + intros e He. destruct (Hsome e He) as [Hacc | (b' & Hin & Hid & ->)].
      * rewrite merged_get_set in Hacc.
        destruct (String.eqb_spec (bus_id b) k) as [Hk | _].
        -- injection Hacc as <-. right. exists b.
           split; [left; reflexivity |]. split; [exact Hk | reflexivity].
        -- left. exact Hacc.
      * right. exists b'. split; [right; exact Hin |].
        split; [exact Hid | reflexivity].
    + intros Hn. destruct (Hnone Hn) as [Hacc Hrest].
      rewrite merged_get_set in Hacc.
      destruct (String.eqb_spec (bus_id b) k) as [Hk | Hk];
        [discriminate |].
      split; [exact Hacc |].
      intros b' [<- | Hin]; [exact Hk | apply Hrest; exact Hin].
Qed.

Lemma views_of_catalog (merged : list (string * Enriched))
    (ids : list string) :
  (forall k, In k ids -> catalog_get k BUS_CATALOG <> None) ->
  (forall k e, merged_get merged k = Some e -> e_bus_id e = k) ->
  exists out,
    views_of merged ids = inr out
    /\ map view_bus_id out = ids
    /\ forall v, In v out ->
         match v with
         | Live e => merged_get merged (e_bus_id e) = Some e
         | Missing p =>
             merged_get merged (ph_bus_id p) = None
             /\ ph_latitude p = None /\ ph_longitude p = None
             /\ ph_occupancy p = 0%Z /\ ph_status p = "on-time"
             /\ ph_occupancy_label p = "available"
         end.
Proof.
  intros Hcat Hkeys. induction ids as [| bid rest IH].
  - exists []. repeat split. intros v [].
  - destruct IH as (out & Hout & Hids & Hall).
    { intros k Hk. apply Hcat. right. exact Hk. }
    cbn [views_of]. unfold enriched_view.
    destruct (merged_get merged bid) as [e |] eqn:Hget.
    + rewrite Hout. eexists. split; [reflexivity |].
      split; [cbn; rewrite (Hkeys bid e Hget), Hids; reflexivity |].
      intros v [<- | Hv]; [| apply Hall; exact Hv].
      rewrite (Hkeys bid e Hget). exact Hget.
    + destruct (catalog_get bid BUS_CATALOG) as [meta |] eqn:Hmeta.
      2:{ exfalso. apply (Hcat bid); [left; reflexivity | exact Hmeta]. }
      rewrite Hout. eexists. split; [reflexivity |].
      split; [cbn; rewrite Hids; reflexivity |].
      intros v [<- | Hv]; [| apply Hall; exact Hv].
      cbn. repeat split. exact Hget.
Qed.

(** X22. [get_buses_enriched] never answers 500 and returns exactly one view per
    catalog entry, in catalog order, whatever the table holds; rows whose
    id is not in the catalog never appear.  A view is the enriched view of
    a row with its id when the table has one, and otherwise a placeholder
    without position, with occupancy 0, labelled "available" and
    "on-time". *)
Theorem enriched_fleet_follows_catalog
    (hash : string -> Z) (now : R) (db : list Bus) :
  exists out,
    get_buses_enriched hash now db = Reply out
    /\ map view_bus_id out = map fst BUS_CATALOG
    /\ forall v, In v out ->
         match v with
         | Live e =>
             exists b,
               In b db /\ bus_id b = e_bus_id e
               /\ e = _merge_bus hash now b
         | Missing p =>
             (forall b, In b db -> bus_id b <> ph_bus_id p)
             /\ ph_latitude p = None /\ ph_longitude p = None
             /\ ph_occupancy p = 0%Z /\ ph_status p = "on-time"
             /\ ph_occupancy_label p = "available"
         end.
Proof.
  unfold get_buses_enriched.
  set (ids := map fst BUS_CATALOG).
  set (buses := filter _ db).
  set (merged := fold_left _ buses []).
  assert (Hsome : forall k e, merged_get merged k = Some e ->
            exists b, In b buses /\ bus_id b = k
                      /\ e = _merge_bus hash now b).
  { intros k e He.
    destruct (proj1 (merged_of_rows hash now buses [] k) e He)
      as [Hacc | Hb]; [discriminate | exact Hb]. }
  assert (Hnone : forall k, merged_get merged k = None ->
            forall b, In b buses -> bus_id b <> k).
  { intros k Hk. apply (proj2 (merged_of_rows hash now buses [] k) Hk). }
  destruct (views_of_catalog merged ids) as (out & Hout & Hids & Hall).
  { intros k Hk. unfold ids in Hk. cbn in Hk.
    repeat (destruct Hk as [<- | Hk]; [cbn; discriminate |]).
    destruct Hk. }
  { intros k e He. destruct (Hsome k e He) as (b & _ & Hid & ->).
    exact Hid. }
  rewrite Hout. exists out. split; [reflexivity |]. split; [exact Hids |].
  intros v Hv. pose proof (Hall v Hv) as Hview.
  destruct v as [e | p].
  - destruct (Hsome _ e Hview) as (b & Hb & Hid & He).
    exists b. unfold buses in Hb. apply filter_In in Hb.
    split; [tauto |]. split; [exact Hid | exact He].
  - destruct Hview as (Hget & Hrest). split; [| exact Hrest].
    intros b Hb Hid.
    assert (Hin : In (ph_bus_id p) ids).
    { rewrite <- Hids. apply (in_map view_bus_id _ _ Hv). }
    apply (Hnone _ Hget b); [| exact Hid].
    unfold buses. apply filter_In. split; [exact Hb |].
    apply existsb_exists. exists (ph_bus_id p).
    split; [exact Hin | apply String.eqb_eq; exact Hid].
Qed.

End EnrichProps.

(** ** The aggregation endpoints, beyond the claims *)

Module AggregateExtra.
Import Main.
Import MainProps.
Local Open Scope string_scope.
Local Open Scope list_scope.

Section Closest.
Context {A : Type} (key : A -> Z).

Lemma insert_by_perm (x : A) (l : list A) :
  Permutation (insert_by key x l) (x :: l).
Proof.
  induction l as [| y rest IH]; [reflexivity |]. cbn [insert_by].
  destruct (key x <=? key y)%Z; [reflexivity |].
  rewrite IH. apply perm_swap.
Qed.

Lemma sort_by_perm (l : list A) : Permutation (sort_by key l) l.
Proof.
  induction l as [| x rest IH]; [reflexivity |].
  unfold sort_by in *. cbn [fold_right].
  rewrite insert_by_perm. constructor. exact IH.
Qed.

Lemma ascending_split (l1 l2 : list A) :
  ascending_by key (l1 ++ l2) ->
  forall x y, In x l1 -> In y l2 -> (key x <= key y)%Z.
Proof.
  unfold ascending_by. induction l1 as [| a rest IH]; intros Hs x y Hx Hy.
  - destruct Hx.
  - cbn [app] in Hs. inversion Hs as [| ? ? Hrest Hall]; subst.
    destruct Hx as [<- | Hx].
    + rewrite Forall_forall in Hall. apply Hall.
      apply in_or_app. right. exact Hy.
    + apply IH; assumption.
Qed.

(** A slice [l[:k]] of a sorted list and what it leaves out. *)
Lemma slice_of_sorted (l : list A) (k : Z) :
  exists rest,
    Permutation (Py.slice_to (sort_by key l) k ++ rest) l
    /\ (forall x y, In x (Py.slice_to (sort_by key l) k) -> In y rest ->
          (key x <= key y)%Z)
    /\ (forall v,
          filter (fun x => (key x =? v)%Z)
            (Py.slice_to (sort_by key l) k ++ rest)
          = filter (fun x => (key x =? v)%Z) l)
    /\ List.length (Py.slice_to (sort_by key l) k)
       = if (k <? 0)%Z
         then Z.to_nat (Z.of_nat (List.length l) + k)
         else Nat.min (Z.to_nat k) (List.length l).
Proof.
  assert (Hcut : forall n,
            exists rest,
              Permutation (firstn n (sort_by key l) ++ rest) l
              /\ (forall x y, In x (firstn n (sort_by key l)) -> In y rest ->
                    (key x <= key y)%Z)
              /\ (forall v,
                    filter (fun x => (key x =? v)%Z)
                      (firstn n (sort_by key l) ++ rest)
                    = filter (fun x => (key x =? v)%Z) l)
              /\ List.length (firstn n (sort_by key l))
                 = Nat.min n (List.length l)).
  { intros n. exists (skipn n (sort_by key l)).
    split; [rewrite firstn_skipn; apply sort_by_perm |].
    split; [| split].
    - apply ascending_split. rewrite firstn_skipn.
      apply sort_by_ascending.
    - intros v. rewrite firstn_skipn. apply sort_by_stable.
    - rewrite length_firstn, sort_by_length. reflexivity. }
  unfold Py.slice_to. rewrite sort_by_length.
  destruct (Z.ltb_spec k 0) as [Hneg | Hpos].
  - destruct (Hcut (Z.to_nat (Z.of_nat (List.length l) + k)))
      as (rest & Hp & Hle & Hst & Hlen).
    exists rest. split; [exact Hp |]. split; [exact Hle |].
    split; [exact Hst |]. rewrite Hlen. lia.
  - apply Hcut.
Qed.

End Closest.

(** X23. [nearest] raises only what a distance call raised: when the
    calls for the 21 master stops and for the buses that have both
    coordinates return, so does [nearest].  Whenever it returns, it lists
    the closest entries, for every limit: what it leaves out of the
    stops, and of the buses that have both coordinates, is at least as
    far as everything it lists, and entries at the same truncated
    distance come in the order of the stop list and of the table.  A
    limit [k >= 0] keeps the [k] closest (all of them when there are
    fewer); a negative limit drops the [-k] farthest. *)
Theorem nearest_lists_the_closest
    (haversine_m_fl : R -> R -> R -> R -> Py.result R)
    (lat lon : R) (max_results : Z) (db : list Bus) :
  ((forall s, In s MASTER_STOPS ->
      exists d, haversine_m_fl lat lon (stop_lat s) (stop_lon s) = Py.Ok d) ->
   (forall b la lo, In b db ->
      latitude b = Some la -> longitude b = Some lo ->
      exists d, haversine_m_fl lat lon la lo = Py.Ok d) ->
   exists out, nearest haversine_m_fl lat lon max_results db = Py.Ok out)
  /\ forall out,
       nearest haversine_m_fl lat lon max_results db = Py.Ok out ->
       exists all_stops all_buses rest_stops rest_buses,
         for_each (near_stop haversine_m_fl lat lon) MASTER_STOPS
         = Py.Ok all_stops
         /\ for_each (near_bus haversine_m_fl lat lon)
              (filter (fun b => is_not_none (latitude b)
                                && is_not_none (longitude b)) db)
            = Py.Ok all_buses
         /\ Permutation (nearest_stops out ++ rest_stops) all_stops
         /\ Permutation (nearest_buses out ++ rest_buses) all_buses
         /\ (forall x y, In x (nearest_stops out) -> In y rest_stops ->
               (ns_dist_m x <= ns_dist_m y)%Z)
         /\ (forall x y, In x (nearest_buses out) -> In y rest_buses ->
               (nb_dist_m x <= nb_dist_m y)%Z)
         /\ (forall v,
               filter (fun x => (ns_dist_m x =? v)%Z)
                 (nearest_stops out ++ rest_stops)
               = filter (fun x => (ns_dist_m x =? v)%Z) all_stops)
         /\ (forall v,
               filter (fun x => (nb_dist_m x =? v)%Z)
                 (nearest_buses out ++ rest_buses)
               = filter (fun x => (nb_dist_m x =? v)%Z) all_buses)
         /\ List.length (nearest_stops out)
            = (if (max_results <? 0)%Z
               then Z.to_nat (21 + max_results)
               else Nat.min (Z.to_nat max_results) 21)
         /\ List.length (nearest_buses out)
            = (if (max_results <? 0)%Z
               then Z.to_nat
                      (Z.of_nat (List.length all_buses) + max_results)
               else Nat.min (Z.to_nat max_results)
                      (List.length all_buses))
         /\ List.length all_buses
            = List.length
                (filter (fun b => is_not_none (latitude b)
                                  && is_not_none (longitude b)) db).
Proof.
  split.
  - intros Hstops Hbuses. unfold nearest.
    destruct (for_each_returns (near_stop haversine_m_fl lat lon)
                MASTER_STOPS) as (all_stops & ->).
    { intros s Hs. destruct (Hstops s Hs) as (d & Hd).
      unfold near_stop. rewrite Hd. eexists. reflexivity. }
    destruct (for_each_returns (near_bus haversine_m_fl lat lon)
                (filter (fun b => is_not_none (latitude b)
                                  && is_not_none (longitude b)) db))
      as (all_buses & ->).
    { intros b Hb. apply filter_In in Hb. destruct Hb as [Hb Hloc].
      unfold near_bus.
      destruct (latitude b) as [la |] eqn:Hla; [| discriminate].
      destruct (longitude b) as [lo |] eqn:Hlo; [| discriminate].
      destruct (Hbuses b la lo Hb Hla Hlo) as (d & ->).
      eexists. reflexivity. }
    eexists. reflexivity.
  - intros out Hout.
    destruct (nearest_returned _ _ _ _ _ _ Hout)
      as (all_stops & all_buses & Hstops & Hbuses & -> & ->).
    destruct (for_each_near_stop _ _ _ _ _ Hstops) as (Hlens0 & _).
    destruct (for_each_near_bus _ _ _ _ _ Hbuses) as (Hlenb0 & _).
    destruct (slice_of_sorted ns_dist_m all_stops max_results)
      as (rs & Hps & Hles & Hsts & Hlens).
    destruct (slice_of_sorted nb_dist_m all_buses max_results)
      as (rb & Hpb & Hleb & Hstb & Hlenb).
    exists all_stops, all_buses, rs, rb.
    split; [exact Hstops |]. split; [exact Hbuses |].
    split; [exact Hps |]. split; [exact Hpb |].
    split; [exact Hles |]. split; [exact Hleb |].
    split; [exact Hsts |]. split; [exact Hstb |].
    split; [rewrite Hlens, Hlens0; reflexivity |].
    split; [exact Hlenb | exact Hlenb0].
Qed.

Lemma Rleb_le (x y : R) : Py.Rleb x y = true -> x <= y.
Proof. apply Rleb_true. Qed.

(** X24. Every vehicle that the bounding-box query returns has the coordinate
    that each supplied bound constrains, within that bound, and is also
    returned by the query without bounds; a box whose lower bound exceeds
    its upper bound returns nothing. *)
Theorem bounding_box_is_sound (as_map : bool)
    (min_lat max_lat min_lon max_lon : option R) (db : list Bus) :
  (as_map = true -> NoDup (map bus_id db)) ->
  let out :=
    buses_of (get_all_buses as_map min_lat max_lat min_lon max_lon db) in
  (forall d, In d out ->
     (forall v, min_lat = Some v ->
        exists la, d_latitude d = Some la /\ v <= la)
     /\ (forall v, max_lat = Some v ->
           exists la, d_latitude d = Some la /\ la <= v)
     /\ (forall v, min_lon = Some v ->
           exists lo, d_longitude d = Some lo /\ v <= lo)
     /\ (forall v, max_lon = Some v ->
           exists lo, d_longitude d = Some lo /\ lo <= v)
     /\ In d (buses_of (get_all_buses as_map None None None None db)))
  /\ (forall a b, min_lat = Some a -> max_lat = Some b -> b < a -> out = [])
  /\ (forall a b, min_lon = Some a -> max_lon = Some b -> b < a -> out = []).
Proof.
  intros Huniq out.
  assert (Hrow : forall d, In d out ->
            exists b, In b db
                      /\ in_box min_lat max_lat min_lon max_lon b
                      /\ d = bus_to_dict b).
  { intros d Hd. apply (get_all_buses_rows as_map) in Hd; assumption. }
  assert (Hge : forall col v, sql_ge col v = true ->
            exists x, col = Some x /\ v <= x).
  { intros [x |] v H; [| discriminate]. exists x.
    split; [reflexivity | apply Rleb_le; exact H]. }
  assert (Hle : forall col v, sql_le col v = true ->
            exists x, col = Some x /\ x <= v).
  { intros [x |] v H; [| discriminate]. exists x.
    split; [reflexivity | apply Rleb_le; exact H]. }
  assert (Hdict : forall b,
            d_latitude (bus_to_dict b) = latitude b
            /\ d_longitude (bus_to_dict b) = longitude b).
  { intros b. cbn. destruct (latitude b), (longitude b); split; reflexivity. }
  split; [| split].
  - intros d Hd. destruct (Hrow d Hd) as (b & Hb & (B1 & B2 & B3 & B4) & ->).
    destruct (Hdict b) as [-> ->].
    split; [intros v Hv; apply Hge, B1, Hv |].
    split; [intros v Hv; apply Hle, B2, Hv |].
    split; [intros v Hv; apply Hge, B3, Hv |].
    split; [intros v Hv; apply Hle, B4, Hv |].
    apply get_all_buses_rows; [exact Huniq |].
    exists b. split; [exact Hb |]. split; [| reflexivity].
    unfold in_box. repeat split; discriminate.
  - intros a b Ha Hb Hlt. destruct out as [| d rest] eqn:Hout;
      [reflexivity | exfalso].
    destruct (Hrow d (or_introl eq_refl)) as (r & _ & (B1 & B2 & _) & _).
    destruct (Hge _ _ (B1 a Ha)) as (x & Hx & Hax).
    destruct (Hle _ _ (B2 b Hb)) as (y & Hy & Hyb).
    rewrite Hx in Hy. injection Hy as <-. lra.
  - intros a b Ha Hb Hlt. destruct out as [| d rest] eqn:Hout;
      [reflexivity | exfalso].
    destruct (Hrow d (or_introl eq_refl)) as (r & _ & (_ & _ & B3 & B4) & _).
    destruct (Hge _ _ (B3 a Ha)) as (x & Hx & Hax).
    destruct (Hle _ _ (B4 b Hb)) as (y & Hy & Hyb).
    rewrite Hx in Hy. injection Hy as <-. lra.
Qed.

Lemma bounding_box_is_sound_witness :
  buses_of (get_all_buses true (Some 1) (Some 0) None None
              Sample.located_db) = [].
Proof.
  assert (Huniq : true = true -> NoDup (map bus_id Sample.located_db)).
  { intros _. cbn. repeat constructor; cbn; intuition discriminate. }
  destruct (bounding_box_is_sound true (Some 1) (Some 0) None None
              Sample.located_db Huniq) as (_ & Hempty & _).
  apply (Hempty 1 0); [reflexivity | reflexivity | lra].
Defined.

Lemma dict_set_In (d : list (string * BusDict)) (k k' : string)
    (v v' : BusDict) :
  In (k', v') (dict_set d k v) -> (k' = k /\ v' = v) \/ In (k', v') d.
Proof.
  induction d as [| [k0 v0] rest IH]; cbn [dict_set].
  - intros [[= <- <-] | []]. left. split; reflexivity.
  - destruct (String.eqb_spec k0 k) as [-> | _].
    + intros [[= <- <-] | Hin]; [left; split; reflexivity |].
      right. right. exact Hin.
    + intros [Heq | Hin]; [right; left; exact Heq |].
      destruct (IH Hin) as [Hnew | Hold]; [left; exact Hnew |].
      right. right. exact Hold.
Qed.

Lemma dict_set_keys (d : list (string * BusDict)) (k : string)
    (v : BusDict) :
  (forall k', In k' (map fst (dict_set d k v))
              <-> k' = k \/ In k' (map fst d))
  /\ (NoDup (map fst d) -> NoDup (map fst (dict_set d k v))).
Proof.
  induction d as [| [k0 v0] rest [IHin IHnd]]; cbn [dict_set].
  - split; [intros k'; cbn; intuition congruence |].
    intros _. cbn. constructor; [intros [] | constructor].
  - destruct (String.eqb_spec k0 k) as [-> | Hne]; cbn [map fst].
    + split; [intros k'; cbn; intuition congruence | tauto].
    + split.
      * intros k'. cbn [In]. rewrite IHin. cbn. intuition congruence.
      * intros Hnd. inversion Hnd as [| ? ? Hnotin Hrest]; subst.
        constructor; [| apply IHnd; exact Hrest].
        rewrite IHin. intros [Heq | Hin]; [congruence | contradiction].
Qed.

Lemma dict_of_rows (out : list BusDict) :
  forall acc,
    let m := fold_left (fun d b => dict_set d (d_bus_id b) b) out acc in
    (NoDup (map fst acc) -> NoDup (map fst m))
    /\ (forall k v, In (k, v) m ->
          In (k, v) acc \/ (In v out /\ d_bus_id v = k))
    /\ (forall k, In k (map fst m)
                  <-> In k (map fst acc) \/ In k (map d_bus_id out)).
Proof.
  induction out as [| b rest IH]; intros acc; cbv zeta in *.
  - cbn. repeat split; tauto.
  - cbn [fold_left].
    destruct (IH (dict_set acc (d_bus_id b) b)) as (Hnd & Hval & Hkey).
    destruct (dict_set_keys acc (d_bus_id b) b) as [Hin Hnd0].
    split; [intros H; apply Hnd, Hnd0, H |]. split.
    + intros k v Hkv. destruct (Hval k v Hkv) as [Hacc | [Hv Hk]].
      * destruct (dict_set_In _ _ _ _ _ Hacc) as [[-> ->] | Hold];
          [right; split; [left; reflexivity | reflexivity] | left; exact Hold].
      * right. split; [right; exact Hv | exact Hk].
    + intros k. rewrite Hkey, Hin. cbn. intuition congruence.
Qed.

(** X25. In its map shape, [/buses] returns one entry per bus id of its list
    shape, whatever the table holds: the keys are pairwise distinct, each
    key is the id of the dictionary it is bound to, that dictionary is one
    of the list shape, and every id of the list shape is a key. *)
Theorem buses_map_is_keyed_by_id
    (min_lat max_lat min_lon max_lon : option R) (db : list Bus) :
  exists m,
    get_all_buses true min_lat max_lat min_lon max_lon db = AsMap m
    /\ NoDup (map fst m)
    /\ (forall k d, In (k, d) m ->
          d_bus_id d = k
          /\ In d (buses_of
                     (get_all_buses false min_lat max_lat min_lon max_lon
                        db)))
    /\ (forall d,
          In d (buses_of
                  (get_all_buses false min_lat max_lat min_lon max_lon db)) ->
          In (d_bus_id d) (map fst m)).
Proof.
  unfold get_all_buses. cbn [buses_of].
  set (out := map bus_to_dict _).
  destruct (dict_of_rows out []) as (Hnd & Hval & Hkey).
  eexists. split; [reflexivity |].
  split; [apply Hnd; constructor |]. split.
  - intros k d Hkd. destruct (Hval k d Hkd) as [[] | [Hd Hk]].
    split; assumption.
  - intros d Hd. apply Hkey. right. apply in_map. exact Hd.
Qed.

End AggregateExtra.

(** ** Users *)

Module AccountProps.
Import Backend.
Import Accounts.
Local Open Scope string_scope.
Local Open Scope list_scope.

Lemma first_user_none (name : string) (db : list User) :
  first_user name db = None <-> (forall u, In u db -> username u <> name).
Proof.
  unfold first_user. split.
  - intros H u Hu Heq. apply (find_none _ _ H) in Hu.
    apply String.eqb_neq in Hu. contradiction.
  - intros H. induction db as [| u rest IH]; [reflexivity |].
    cbn [find]. destruct (String.eqb_spec (username u) name) as [Heq | _].
    + exfalso. apply (H u); [left; reflexivity | exact Heq].
    + apply IH. intros u' Hu'. apply H. right. exact Hu'.
Qed.

Lemma first_user_new (name : string) (db : list User) (u : User) :
  first_user name db = None -> username u = name ->
  first_user name (db ++ [u]) = Some u.
Proof.
  unfold first_user. intros Hnone Hu.
  induction db as [| x rest IH].
  - cbn. rewrite Hu, String.eqb_refl. reflexivity.
  - cbn [app find] in *.
    destruct (String.eqb (username x) name); [discriminate |].
    apply IH. exact Hnone.
Qed.

(** X26. A new user can log in with the password that was registered, and with
    no other: after [/register] of a free username, [/login] with that
    password returns the fresh token with the registered phone, and with
    any other password answers 401 and leaves the table as it was. *)
Theorem register_then_login (user : UserCreate) (db : list User) :
  (forall u, In u db -> username u <> uc_username user) ->
  let db1 := snd (register user db) in
  fst (register user db)
  = Reply (mkRegisterOk "ok" (next_user_id db) (uc_username user))
  /\ (forall fresh,
        fst (login (uc_username user) (uc_password user) fresh db1)
        = Reply (mkLoginOk "ok" fresh (uc_username user) (uc_phone user)))
  /\ (forall pw fresh,
        pw <> uc_password user ->
        login (uc_username user) pw fresh db1
        = (Abort (mkHTTPException 401 "Invalid credentials"), db1)).
Proof.
  intros Hfree. apply first_user_none in Hfree. cbv zeta.
  unfold register. rewrite Hfree. cbn [fst snd user_id username].
  split; [reflexivity |].
  set (new_user := mkUser _ _ _ _ _).
  assert (Hfirst : first_user (uc_username user) (db ++ [new_user])
                   = Some new_user)
    by (apply first_user_new; [exact Hfree | reflexivity]).
  unfold login. rewrite Hfirst. cbn [password username phone new_user].
  split.
  - intros fresh. rewrite String.eqb_refl. reflexivity.
  - intros pw fresh Hpw.
    destruct (String.eqb_spec (uc_password user) pw) as [Heq | _];
      [congruence | reflexivity].
Qed.

Lemma register_then_login_witness :
  fst (login "asha" "s3cret" "tok"
         (snd (register (mkUserCreate "asha" "s3cret" (Some "9876543210"))
                 [])))
  = Reply (mkLoginOk "ok" "tok" "asha" (Some "9876543210")).
Proof.
  destruct (register_then_login
              (mkUserCreate "asha" "s3cret" (Some "9876543210")) [])
    as (_ & Hlogin & _).
  - intros u [].
  - apply Hlogin.
Defined.

Lemma NoDup_snoc_fresh {A} (l : list A) (x : A) :
  NoDup l -> ~ In x l -> NoDup (l ++ [x]).
Proof.
  intros Hl Hx. apply (Permutation_NoDup (l := x :: l)).
  - apply Permutation_cons_append.
  - constructor; assumption.
Qed.

(** X27. [/register] of a username that is taken answers 400 and changes
    nothing; in every case the usernames of the table stay pairwise
    distinct and the rows already there are kept as they are. *)
Theorem register_keeps_usernames_unique
    (user : UserCreate) (db : list User) :
  NoDup (map username db) ->
  NoDup (map username (snd (register user db)))
  /\ (exists rest, snd (register user db) = db ++ rest)
  /\ ((exists u, In u db /\ username u = uc_username user) ->
      register user db
      = (Abort (mkHTTPException 400 "Username already taken"), db)).
Proof.
  intros Hnd. unfold register.
  destruct (first_user (uc_username user) db) as [u |] eqn:Hfirst.
  - cbn [snd]. split; [exact Hnd |].
    split; [exists []; rewrite app_nil_r; reflexivity | reflexivity].
  - cbn [snd]. split; [| split].
    + rewrite map_app. cbn [map username]. apply NoDup_snoc_fresh;
        [exact Hnd |].
      intros Hin. apply in_map_iff in Hin. destruct Hin as (u & Hu & Hin).
      apply (proj1 (first_user_none _ _) Hfirst u Hin Hu).
    + eexists. reflexivity.
    + intros (u & Hin & Hu). exfalso.
      apply (proj1 (first_user_none _ _) Hfirst u Hin Hu).
Qed.

Lemma register_keeps_usernames_unique_witness :
  register (mkUserCreate "asha" "other" None)
    (snd (register (mkUserCreate "asha" "s3cret" None) []))
  = (Abort (mkHTTPException 400 "Username already taken"),
     snd (register (mkUserCreate "asha" "s3cret" None) [])).
Proof.
  destruct (register_keeps_usernames_unique
              (mkUserCreate "asha" "other" None)
              (snd (register (mkUserCreate "asha" "s3cret" None) [])))
    as (_ & _ & Htaken).
  - cbn. repeat constructor. intros [].
  - apply Htaken. eexists. split; [left; reflexivity | reflexivity].
Defined.

Lemma join_app (cs1 cs2 : list string) :
  join (cs1 ++ cs2) = (join cs1 ++ join cs2)%string.
Proof.
  unfold join. induction cs1 as [| ch rest IH]; [reflexivity |].
  cbn [app fold_right]. rewrite IH.
  clear. induction ch as [| c ch' IHc]; [reflexivity |].
  cbn [String.append]. rewrite IHc. reflexivity.
Qed.

(** Cutting a string into characters loses nothing. *)
Lemma join_chars (s : string) : join (chars s) = s.
Proof.
  induction s as [| c rest IH]; [reflexivity |].
  change (chars (String c rest))
    with (match rest, chars rest with
          | String d _, g :: gs =>
              if is_continuation d
              then String c g :: gs
              else String c EmptyString :: chars rest
          | _, _ => String c EmptyString :: chars rest
          end).
  destruct rest as [| d rest']; [reflexivity |].
  destruct (chars (String d rest')) as [| g gs].
  - cbn in IH. discriminate.
  - destruct (is_continuation d);
      unfold join in *; cbn [fold_right String.append] in *;
      rewrite IH; reflexivity.
Qed.

(** X28. [/user/last4] answers 404 exactly when the user is unknown or has no
    phone or an empty one; otherwise it returns the end of the stored
    phone: its last four characters, or the whole phone when it has fewer
    than four.  Characters are counted, not bytes. *)
Theorem last4_is_the_end_of_the_phone (name : string) (db : list User) :
  (forall s, get_user_last4 name db = Reply s ->
     exists u p,
       first_user name db = Some u /\ phone u = Some p /\ p <> ""
       /\ exists front back,
            chars p = front ++ back
            /\ s = join back
            /\ p = (join front ++ s)%string
            /\ List.length back = Nat.min 4 (List.length (chars p)))
  /\ (forall e, get_user_last4 name db = Abort e ->
        e = mkHTTPException 404 "User not found"
        /\ (first_user name db = None
            \/ exists u, first_user name db = Some u
                         /\ (phone u = None \/ phone u = Some ""))).
Proof.
  unfold get_user_last4.
  destruct (first_user name db) as [u |] eqn:Hfirst.
  - destruct (phone u) as [p |] eqn:Hphone.
    + destruct (String.eqb_spec p "") as [-> | Hne].
      * split; [discriminate |]. intros e [= <-].
        split; [reflexivity |]. right. exists u. tauto.
      * split; [| discriminate]. intros s [= <-].
        exists u, p. split; [reflexivity |]. split; [exact Hphone |].
        split; [exact Hne |].
        exists (firstn (List.length (chars p) - 4) (chars p)),
               (skipn (List.length (chars p) - 4) (chars p)).
        split; [symmetry; apply firstn_skipn |].
        split; [reflexivity |].
        split.
        -- unfold last4. cbv zeta. rewrite <- join_app, firstn_skipn.
           symmetry. apply join_chars.
        -- rewrite length_skipn. lia.
    + split; [discriminate |]. intros e [= <-].
      split; [reflexivity |]. right. exists u. tauto.
  - split; [discriminate |]. intros e [= <-].
    split; [reflexivity |]. left. reflexivity.
Qed.

Lemma last4_is_the_end_of_the_phone_witness :
  get_user_last4 "asha"
    (snd (register (mkUserCreate "asha" "s3cret" (Some "98→6543")) []))
  = Reply "6543"
  /\ get_user_last4 "ravi"
       (snd (register (mkUserCreate "ravi" "s3cret" (Some "12→45")) []))
     = Reply "2→45"
  /\ exists back,
       "2→45" = join back /\ List.length back = 4%nat.
Proof.
  split; [reflexivity |]. split; [reflexivity |].
  destruct (last4_is_the_end_of_the_phone "ravi"
              (snd (register (mkUserCreate "ravi" "s3cret" (Some "12→45"))
                      [])))
    as (Hreply & _).
  destruct (Hreply "2→45" eq_refl)
    as (u & p & Hu & Hp & _ & front & back & _ & Hs & _ & Hlen).
  cbn in Hu. injection Hu as <-. cbn in Hp. injection Hp as <-.
  exists back. split; [exact Hs | exact Hlen].
Defined.

End AccountProps.

(** ** Bookings *)

Module BookingProps.
Import Backend.
Import Bookings.
Local Open Scope string_scope.
Local Open Scope list_scope.

Lemma newer_chain (a b c : option Z) :
  newer b a = false -> newer c b = false -> newer c a = false.
Proof.
  destruct a as [x |], b as [y |], c as [z |]; cbn;
    rewrite ?Z.ltb_ge; try discriminate; try reflexivity; lia.
Qed.

Lemma newer_asym (a b : option Z) : newer a b = true -> newer b a = false.
Proof.
  destruct a as [x |], b as [y |]; cbn; rewrite ?Z.ltb_lt, ?Z.ltb_ge;
    try discriminate; try reflexivity; lia.
Qed.

Lemma insert_desc_perm (x : Booking) (l : list Booking) :
  Permutation (insert_desc x l) (x :: l).
Proof.
  induction l as [| y rest IH]; [reflexivity |]. cbn [insert_desc].
  destruct (newer (created_at y) (created_at x)); [| reflexivity].
  rewrite IH. apply perm_swap.
Qed.

Lemma order_desc_perm (l : list Booking) : Permutation (order_desc l) l.
Proof.
  induction l as [| x rest IH]; [reflexivity |].
  unfold order_desc in *. cbn [fold_right].
  rewrite insert_desc_perm. constructor. exact IH.
Qed.

Lemma insert_desc_sorted (x : Booking) (l : list Booking) :
  newest_first l -> newest_first (insert_desc x l).
Proof.
  unfold newest_first.
  induction l as [| y rest IH]; intros Hs; cbn [insert_desc].
  - repeat constructor.
  - inversion Hs as [| ? ? Hrest Hall]; subst.
    destruct (newer (created_at y) (created_at x)) eqn:Hyx.
    + constructor; [apply IH; exact Hrest |].
      apply Forall_forall. intros z Hz.
      apply (Permutation_in _ (insert_desc_perm x rest)) in Hz.
      destruct Hz as [<- | Hz]; [apply newer_asym; exact Hyx |].
      rewrite Forall_forall in Hall. apply Hall. exact Hz.
    + constructor; [exact Hs |].
      constructor; [exact Hyx |].
      eapply Forall_impl; [| exact Hall].
      cbn. intros z Hz. eapply newer_chain; [exact Hyx | exact Hz].
Qed.

Lemma order_desc_sorted (l : list Booking) : newest_first (order_desc l).
Proof.
  induction l as [| x rest IH]; [constructor |].
  unfold order_desc in *. cbn [fold_right].
  apply insert_desc_sorted. exact IH.
Qed.

Lemma firstn_sorted {A} (R : A -> A -> Prop) (n : nat) (l : list A) :
  StronglySorted R l -> StronglySorted R (firstn n l).
Proof.
  revert n. induction l as [| y rest IH]; intros [| n] Hs; cbn [firstn];
    try constructor.
  - inversion Hs; subst. apply IH. assumption.
  - inversion Hs as [| ? ? _ Hall]; subst.
    apply Forall_forall. intros z Hz. apply MainProps.firstn_In_of in Hz.
    rewrite Forall_forall in Hall. apply Hall. exact Hz.
Qed.

Lemma filter_truthy_In (value : option string)
    (col : Booking -> option string) (q : list Booking) (b : Booking) :
  In b (filter_truthy value col q)
  <-> In b q
      /\ (forall v, value = Some v -> v <> "" -> col b = Some v).
Proof.
  unfold filter_truthy. destruct value as [v |].
  - destruct (String.eqb_spec v "") as [-> | Hne].
    + split; [intros H; split; [exact H |] | tauto].
      intros v [= <-] Hv. congruence.
    + rewrite filter_In. unfold sql_eq. split.
      * intros [Hin Heq]. split; [exact Hin |]. intros v' [= <-] _.
        destruct (col b) as [c |]; [| discriminate].
        apply String.eqb_eq in Heq. congruence.
      * intros [Hin Hcol]. split; [exact Hin |].
        rewrite (Hcol v eq_refl Hne). apply String.eqb_refl.
  - split; [intros H; split; [exact H | discriminate] | tauto].
Qed.


(** X29. [list_bookings] returns at most 100 bookings, newest first; each is a
    row of the table that matches every filter given with a non-empty
    value, and an empty filter is ignored like a missing one. *)
Theorem list_bookings_filters_and_orders
    (phone_q username_q : option string) (db : list Booking) :
  exists rows,
    list_bookings phone_q username_q db = map to_dict rows
    /\ (List.length rows <= 100)%nat
    /\ newest_first rows
    /\ (forall b, In b rows ->
          In b db
          /\ (forall v, phone_q = Some v -> v <> "" -> phone b = Some v)
          /\ (forall v, username_q = Some v -> v <> "" ->
                username b = Some v))
    /\ list_bookings (Some "") username_q db
       = list_bookings None username_q db
    /\ list_bookings phone_q (Some "") db = list_bookings phone_q None db.
Proof.
  exists (firstn 100 (order_desc (selected phone_q username_q db))).
  split; [reflexivity |].
  split; [rewrite length_firstn; lia |].
  split; [apply firstn_sorted, order_desc_sorted |].
  split; [| split; reflexivity].
  intros b Hb. apply MainProps.firstn_In_of in Hb.
  apply (Permutation_in _ (order_desc_perm _)) in Hb.
  unfold selected in Hb. rewrite !filter_truthy_In in Hb. tauto.
Qed.



End BookingProps.
